(** * video-analyzer: the multi-provider API layer and the result cache

    A shallow embedding of [src/api.ts] (schema conversion, frame
    sub-sampling, request construction for the OpenAI and Anthropic adapters,
    the Gemini upload poll loop, canvas frame extraction) and of the cache and
    mode controller of [src/App.tsx], followed by the properties that the
    specification states about them.

    Conventions of the embedding.
    - An optional property ([x?: T]) or a nullable value is an [option];
      [None] stands for both [undefined] and [null], which the code never
      distinguishes (it tests with truthiness, [??] and [?.]).
    - A JavaScript plain object whose key order reaches the wire is an
      association list in own-key order (keys occur once); the result cache,
      which is only read by key, is a [gmap].
    - Text that the code only compares, concatenates or splits at ASCII
      characters is a [string]; the text typed into the setup screen, which
      [trim] inspects character by character, is a list of UTF-16 code
      units.
    - Asynchronous functions are run against an explicit script of what the
      remote side or the browser answers; their effects are recorded in a
      trace. Built-ins whose result is only passed on ([JSON.parse],
      [TextEncoder]) are parameters. *)

From stdpp Require Import gmap strings list fin_maps pretty.

Set Warnings "-register-all".

(** ** JavaScript helpers *)

Module Js.
Import Stdlib.Strings.Ascii.

(** Truthiness of a string-or-undefined value: [undefined], [null] and the
    empty string are falsy. *)
Definition truthy_string (o : option string) : bool :=
  match o with
  | Some s => negb (String.eqb s "")
  | None => false
  end.

(** [String.prototype.toLowerCase] on ASCII text (the type tags of the
    schema dialects are ASCII identifiers): [A]..[Z] are mapped to
    [a]..[z], every other character is kept. *)
Definition lower_ascii (c : Ascii.ascii) : Ascii.ascii :=
  let n := Ascii.nat_of_ascii c in
  if (65 <=? n) && (n <=? 90) then Ascii.ascii_of_nat (n + 32) else c.

Fixpoint toLowerCase (s : string) : string :=
  match s with
  | EmptyString => EmptyString
  | String c r => String (lower_ascii c) (toLowerCase r)
  end.

(** [Array.prototype.filter((_, i) => p i)]: the callback only looks at the
    index; [i] is the index of the head of [l]. *)
Fixpoint filter_index {A} (p : nat → bool) (i : nat) (l : list A) : list A :=
  match l with
  | [] => []
  | x :: r => if p i then x :: filter_index p (S i) r else filter_index p (S i) r
  end.

(** Values that travel through [any]-typed positions: JSON data as produced
    by [JSON.parse] or by a provider SDK, plus [undefined]. Numbers are
    only carried around, never computed with. *)
Inductive value :=
| Undefined
| Null
| Bool (b : bool)
| Num (n : Z)
| Str (s : string)
| Arr (l : list value)
| Obj (o : list (string * value)).

(** [o[k]] for an own property of a plain object. *)
Fixpoint own_get (k : string) (o : list (string * value)) : value :=
  match o with
  | [] => Undefined
  | (k', v) :: r => if String.eqb k k' then v else own_get k r
  end.

(** The property definition [k: v] of an object literal, after the
    properties that a spread has copied: an existing key keeps its
    position. *)
Fixpoint own_set (k : string) (v : value) (o : list (string * value))
  : list (string * value) :=
  match o with
  | [] => [(k, v)]
  | (k', v') :: r =>
      if String.eqb k k' then (k, v) :: r else (k', v') :: own_set k v r
  end.

(** A thrown exception carries its message. *)
Inductive exc (A : Type) :=
| Ok (a : A)
| Throw (message : string).
Arguments Ok {A} a.
Arguments Throw {A} message.

#[export] Instance exc_bind : MBind exc := λ A B k m,
  match m with
  | Ok a => k a
  | Throw e => Throw e
  end.

(** Sequence a list of computations, left to right, stopping at the first
    throw (what [Array.prototype.map] does when its callback throws). *)
Fixpoint map_exc {A B} (f : A → exc B) (l : list A) : exc (list B) :=
  match l with
  | [] => Ok []
  | x :: r => y ← f x; ys ← map_exc f r; Ok (y :: ys)
  end.

(** The message of a [TypeError] raised by the engine (reading a property
    of [undefined], calling something that is not a function); its text
    depends on the engine. *)
Definition TypeError : string := "TypeError".

(** [v[k]] for a key [k] that no prototype defines: an own property of a
    plain object, [undefined] for every other value that has properties,
    a [TypeError] for [undefined] and [null]. *)
Definition get (k : string) (v : value) : exc value :=
  match v with
  | Undefined | Null => Throw TypeError
  | Obj o => Ok (own_get k o)
  | _ => Ok Undefined
  end.

(** Whether converting a JSON value to a string, or to a property key,
    throws. For an object, [OrdinaryToPrimitive] calls [toString] and then
    [valueOf] if they are functions: a plain object inherits a [toString]
    that answers with a string, but one with an own property [toString]
    (JSON data, so not a function) is left with the inherited [valueOf],
    which returns the object itself, and the conversion ends in a
    [TypeError]. An array joins the strings of its elements, [undefined]
    and [null] counting as empty. *)
Fixpoint toString_throws (v : value) : bool :=
  match v with
  | Obj o => existsb (λ kv, String.eqb kv.1 "toString") o
  | Arr l => existsb toString_throws l
  | _ => false
  end.

(** The own enumerable properties that the spread [{...v}] copies: those
    of an object, the indexed elements of an array or of a string, none
    for the other values. *)
Definition spread (v : value) : list (string * value) :=
  match v with
  | Obj o => o
  | Arr l => imap (λ i x, (pretty i, x)) l
  | Str s => imap (λ i c, (pretty i, Str (String c EmptyString)))
                  (String.list_ascii_of_string s)
  | _ => []
  end.

(** [s.replaceAll("\\'", "'")]: every backslash followed by an apostrophe
    becomes an apostrophe, scanning from the left. *)
Fixpoint unescape_apostrophes (s : string) : string :=
  match s with
  | EmptyString => EmptyString
  | String c r =>
      match r with
      | String c' r' =>
          if (Ascii.eqb c "\" && Ascii.eqb c' "'")%char
          then String "'" (unescape_apostrophes r')
          else String c (unescape_apostrophes r)
      | EmptyString => String c EmptyString
      end
  end.

End Js.

(** ** src/api.ts *)

Module Api.
Import Js.

(** [type Provider = 'gemini' | 'openai' | 'anthropic'] *)
Inductive Provider := gemini | openai | anthropic.

#[export] Instance Provider_eq_dec : EqDecision Provider.
Proof. solve_decision. Defined.

Definition provider_string (p : Provider) : string :=
  match p with
  | gemini => "gemini"
  | openai => "openai"
  | anthropic => "anthropic"
  end.

Record ProviderConfig := {
  provider : Provider;
  apiKey : string;
  model : option string
}.

Record UploadedFile := {
  uri : string;
  mimeType : string;
  frames : option (list string)
}.

(** A function-declaration schema node: the five fields that
    [convertSchemaToOpenAI] reads and, in [others], the remaining own
    fields of the node ([enum], [format], [nullable], ...), which it never
    looks at. *)
Inductive Schema := mkSchema {
  type : option string;
  description : option string;
  required : option (list string);
  properties : option (list (string * Schema));
  items : option Schema;
  others : list (string * value)
}.

Record FunctionDeclaration := {
  fn_name : string;
  fn_description : string;
  fn_parameters : option Schema
}.

(** *** Schema conversion helper (api.ts, lines 218-241) *)

(** The literal [{}]. *)
Definition empty_schema : Schema :=
  mkSchema None None None None None [].

(** Whether the assignment [o[key] = v] on an object created by [{}]
    defines an own property. It does for every key but [__proto__]: that
    assignment runs the setter inherited from [Object.prototype], which
    makes [v] the prototype of [o] and defines nothing. *)
Definition defines_own_property (key : string) : bool :=
  negb (String.eqb key "__proto__").

(** The body of [convertSchemaToOpenAI] for a non-null node. An array and
    an object are truthy even when empty, a string only when non-empty.
    [Object.entries] lists every own key once; each value is converted and
    assigned with [result.properties[key] = ...], which fills the fresh
    object in the order of the entries, except that the entry of an own key
    [__proto__] is lost (its converted value becomes the prototype of
    [result.properties], which is neither an own property nor
    serialized). [result] starts as [{}] and receives the five fields
    only. *)
Fixpoint convertSchemaNode (schema : Schema) : Schema :=
  {| type :=
       if truthy_string (type schema)
       then toLowerCase <$> type schema else None;
     description :=
       if truthy_string (description schema)
       then description schema else None;
     required := required schema;
     properties :=
       match properties schema with
       | Some entries =>
           Some (List.filter (λ kv, defines_own_property kv.1)
                   (map (λ kv, (kv.1, convertSchemaNode kv.2)) entries))
       | None => None
       end;
     items :=
       match items schema with
       | Some it => Some (convertSchemaNode it)
       | None => None
       end;
     others := [] |}.

(** [if (!schema) return {};] then the body. *)
Definition convertSchemaToOpenAI (schema : option Schema) : Schema :=
  match schema with
  | None => empty_schema
  | Some s => convertSchemaNode s
  end.

(** *** Frame sub-sampling (api.ts, lines 91-93 and 163-165)

    Both adapters contain the same three lines:
<<
    const maxFrames = 20;
    const step = Math.max(1, Math.floor(file.frames.length / maxFrames));
    const sampledFrames = file.frames.filter((_, i) => i % step === 0).slice(0, maxFrames);
>> *)
Definition maxFrames : nat := 20.

Definition step (frameCount : nat) : nat :=
  Nat.max 1 (frameCount / maxFrames).

Definition sampledFrames {A} (frames : list A) : list A :=
  take maxFrames
    (filter_index (λ i, i mod step (length frames) =? 0) 0 frames).

(** *** Request construction *)

Definition systemInstruction : string :=
  "You are an expert workflow and UI analyst. When given a video of a UI workflow application and a query,
call the relevant function only once with the appropriate timecodes and structured data for the video.
Focus on identifying user workflows, UI interactions, application screens, and business processes visible in the video.".

Inductive ContentBlock :=
| TextBlock (text : string)
| ImageUrlBlock (url : string) (detail : string)
| ImageBlock (source_type media_type data : string).

Definition is_image (b : ContentBlock) : bool :=
  match b with
  | TextBlock _ => false
  | ImageUrlBlock _ _ | ImageBlock _ _ _ => true
  end.

Definition is_text (b : ContentBlock) : bool := negb (is_image b).

Record Message := {
  role : string;
  content : list ContentBlock
}.

(** [file.frames && file.frames.length > 0] *)
Definition has_frames (file : UploadedFile) : bool :=
  match frames file with
  | Some (_ :: _) => true
  | _ => false
  end.

Definition frames_of (file : UploadedFile) : list string :=
  default [] (frames file).

(** **** OpenAI (api.ts, lines 69-119) *)

Record OpenAITool := {
  ot_type : string;
  ot_name : string;
  ot_description : string;
  ot_parameters : Schema
}.

Record OpenAIRequest := {
  oa_model : string;
  oa_messages : list (string * (string + list ContentBlock));
  oa_tools : list OpenAITool;
  oa_tool_choice : string;
  oa_temperature : Qp
}.

Definition openaiUserContent (text : string) (file : UploadedFile)
  : list ContentBlock :=
  TextBlock text ::
  (if has_frames file
   then map (λ frame, ImageUrlBlock ("data:image/jpeg;base64," +:+ frame) "high")
            (sampledFrames (frames_of file))
   else []).

Definition openaiRequest (text : string)
    (functionDeclarations : list FunctionDeclaration)
    (file : UploadedFile) (model : option string) : OpenAIRequest :=
  {| oa_model := default "gpt-4o" model;
     oa_messages :=
       [("system", inl systemInstruction);
        ("user", inr (openaiUserContent text file))];
     oa_tools :=
       map (λ fn, {| ot_type := "function";
                     ot_name := fn_name fn;
                     ot_description := fn_description fn;
                     ot_parameters := convertSchemaToOpenAI (fn_parameters fn) |})
           functionDeclarations;
     oa_tool_choice := "required";
     oa_temperature := (1 / 2)%Qp |}.

(** **** Anthropic (api.ts, lines 145-197) *)

Record AnthropicTool := {
  at_name : string;
  at_description : string;
  at_input_schema : Schema
}.

Record AnthropicRequest := {
  an_model : string;
  an_max_tokens : N;
  an_system : string;
  an_messages : list Message;
  an_tools : list AnthropicTool;
  an_tool_choice : string
}.

Definition anthropicUserContent (text : string) (file : UploadedFile)
  : list ContentBlock :=
  (if has_frames file
   then map (λ frame, ImageBlock "base64" "image/jpeg" frame)
            (sampledFrames (frames_of file))
   else [])
  ++ [TextBlock text].

Definition anthropicRequest (text : string)
    (functionDeclarations : list FunctionDeclaration)
    (file : UploadedFile) (model : option string) : AnthropicRequest :=
  {| an_model := default "claude-opus-4-5" model;
     an_max_tokens := 8096%N;
     an_system := systemInstruction;
     an_messages :=
       [{| role := "user"; content := anthropicUserContent text file |}];
     an_tools :=
       map (λ fn, {| at_name := fn_name fn;
                     at_description := fn_description fn;
                     at_input_schema := convertSchemaToOpenAI (fn_parameters fn) |})
           functionDeclarations;
     an_tool_choice := "any" |}.

(** *** Video upload through the Gemini Files API (api.ts, lines 264-287) *)

(** The browser [File] that was dropped. *)
Record File := {
  file_name : string;
  file_type : string
}.

(** What [client.files.upload] and [client.files.get] resolve with. The
    state is one of the SDK's strings ([PROCESSING], [ACTIVE], [FAILED],
    ...) or absent. *)
Record GeminiFile := {
  gf_name : string;
  gf_state : option string;
  gf_uri : string;
  gf_mimeType : string
}.

(** What the remote store answers: one reply to the upload, then one reply
    per status read, in order. A reply is a file handle or an error thrown
    by the SDK. *)
Record Remote := {
  upload_reply : exc GeminiFile;
  get_replies : list (exc GeminiFile)
}.

Inductive Event :=
| ConsoleLog (line : string)
| FilesUpload (displayName type : string)
| FilesGet (name : string)
| SetTimeout (ms : N).

(** The state of the promise when the script of replies is used up. *)
Inductive settled (A : Type) :=
| Resolved (a : A)
| Rejected (message : string)
| StillPending.
Arguments Resolved {A} a.
Arguments Rejected {A} message.
Arguments StillPending {A}.

Record Run (A : Type) := {
  outcome : settled A;
  trace : list Event;
  unread : list (exc GeminiFile)
}.
Arguments outcome {A} _.
Arguments trace {A} _.
Arguments unread {A} _.

(** [getFile.state === 'PROCESSING'] *)
Definition state_is (s : string) (f : GeminiFile) : bool :=
  match gf_state f with
  | Some st => String.eqb st s
  | None => false
  end.

(** The template literal [`File state: ${getFile.state}`]. *)
Definition state_line (f : GeminiFile) : string :=
  "File state: " +:+ default "undefined" (gf_state f).

(** The [while] loop of lines 275-279. [getFile] is the handle read last,
    [replies] what the remote will answer to the coming status reads. *)
Fixpoint poll (name : string) (getFile : GeminiFile)
    (replies : list (exc GeminiFile)) (tr : list Event) : Run GeminiFile :=
  if state_is "PROCESSING" getFile then
    match replies with
    | [] =>
        {| outcome := StillPending;
           trace := tr ++ [SetTimeout 5000; FilesGet name];
           unread := [] |}
    | Throw e :: rest =>
        {| outcome := Rejected e;
           trace := tr ++ [SetTimeout 5000; FilesGet name];
           unread := rest |}
    | Ok next :: rest =>
        poll name next rest
             (tr ++ [SetTimeout 5000; FilesGet name; ConsoleLog (state_line next)])
    end
  else {| outcome := Resolved getFile; trace := tr; unread := replies |}.

Definition uploadFileToGemini (file : File) (apiKey : string) (remote : Remote)
  : Run UploadedFile :=
  let tr0 := [ConsoleLog "Uploading to Gemini Files API...";
              FilesUpload (file_name file) (file_type file)] in
  match upload_reply remote with
  | Throw e =>
      {| outcome := Rejected e; trace := tr0; unread := get_replies remote |}
  | Ok uploadedFile =>
      let name := gf_name uploadedFile in
      let tr1 := tr0 ++ [FilesGet name] in
      match get_replies remote with
      | [] => {| outcome := StillPending; trace := tr1; unread := [] |}
      | Throw e :: rest =>
          {| outcome := Rejected e; trace := tr1; unread := rest |}
      | Ok first :: rest =>
          let polled := poll name first rest tr1 in
          match outcome polled with
          | Resolved getFile =>
              if state_is "FAILED" getFile then
                {| outcome := Rejected "File processing failed.";
                   trace := trace polled;
                   unread := unread polled |}
              else
                {| outcome :=
                     Resolved {| uri := gf_uri getFile;
                                 mimeType := gf_mimeType getFile;
                                 frames := None |};
                   trace := trace polled ++ [ConsoleLog "Upload complete."];
                   unread := unread polled |}
          | Rejected e =>
              {| outcome := Rejected e;
                 trace := trace polled; unread := unread polled |}
          | StillPending =>
              {| outcome := StillPending;
                 trace := trace polled; unread := unread polled |}
          end
      end
  end.

(** The error that [uploadFileToGemini] throws for a failed processing
    state, the specification's [ProcessingError]. *)
Definition ProcessingError : string := "File processing failed.".

(** *** Frame extraction through a canvas (api.ts, lines 291-330)

    JavaScript numbers are kept abstract: [num] with the two operations
    the function applies to them, so that a timestamp is exactly the
    expression the code evaluates, [currentFrame * (duration / maxFrames)]. *)
Section FrameExtraction.
Context {num : Type}.
Variable of_count : nat → num.
Variables times divided_by : num → num → num.

(** The video element: its duration and, for a playback position, the
    base64 payload of the JPEG that [drawImage], [toDataURL] and
    [split(',')[1]] produce from the frame shown there. *)
Record HTMLVideoElement := {
  duration : num;
  frame_at : num → string
}.

(** The variables of the closure and the state of the element. *)
Record Extraction := {
  ex_frames : list string;
  currentFrame : nat;
  listening : bool;
  resolved : bool;
  seeking : option num;
  seeks : list num;
  overlapped : bool
}.

Variable videoElement : HTMLVideoElement.
Variable maxFrames : nat.

Definition interval : num :=
  divided_by (duration videoElement) (of_count maxFrames).

(** [videoElement.currentTime = time]: starts a seek; [overlapped]
    records whether another seek was still in flight. *)
Definition set_currentTime (time : num) (st : Extraction) : Extraction :=
  {| ex_frames := ex_frames st;
     currentFrame := currentFrame st;
     listening := listening st;
     resolved := resolved st;
     seeking := Some time;
     seeks := seeks st ++ [time];
     overlapped := overlapped st || bool_decide (is_Some (seeking st)) |}.

Definition captureFrame (st : Extraction) : Extraction :=
  if maxFrames <=? currentFrame st then
    {| ex_frames := ex_frames st;
       currentFrame := currentFrame st;
       listening := listening st;
       resolved := true;
       seeking := seeking st;
       seeks := seeks st;
       overlapped := overlapped st |}
  else set_currentTime (times (of_count (currentFrame st)) interval) st.

(** The listener [onSeeked], run with the element at position [position]. *)
Definition onSeeked (position : num) (st : Extraction) : Extraction :=
  let pushed :=
    {| ex_frames := ex_frames st ++ [frame_at videoElement position];
       currentFrame := S (currentFrame st);
       listening := listening st;
       resolved := resolved st;
       seeking := seeking st;
       seeks := seeks st;
       overlapped := overlapped st |} in
  let st' := captureFrame pushed in
  if maxFrames <=? currentFrame st' then
    {| ex_frames := ex_frames st';
       currentFrame := currentFrame st';
       listening := false;
       resolved := resolved st';
       seeking := seeking st';
       seeks := seeks st';
       overlapped := overlapped st' |}
  else st'.

(** The browser completes the seek in flight and fires [seeked]. *)
Definition seek_completes (position : num) (st : Extraction) : Extraction :=
  let arrived :=
    {| ex_frames := ex_frames st;
       currentFrame := currentFrame st;
       listening := listening st;
       resolved := resolved st;
       seeking := None;
       seeks := seeks st;
       overlapped := overlapped st |} in
  if listening st then onSeeked position arrived else arrived.

(** The event loop: as long as a seek is in flight, the browser completes
    it; [events] bounds how many completions are delivered. *)
Fixpoint deliver (events : nat) (st : Extraction) : Extraction :=
  match events, seeking st with
  | S n, Some position => deliver n (seek_completes position st)
  | _, _ => st
  end.

(** The body of the promise executor: the listener is registered, then
    [captureFrame()] is called once. *)
Definition start : Extraction :=
  captureFrame
    {| ex_frames := [];
       currentFrame := 0;
       listening := true;
       resolved := false;
       seeking := None;
       seeks := [];
       overlapped := false |}.

(** The promise resolves with the array [frames] itself. *)
Definition promise (st : Extraction) : settled (list string) :=
  if resolved st then Resolved (ex_frames st) else StillPending.

Definition extractFrames (events : nat) : Extraction :=
  deliver events start.

End FrameExtraction.

End Api.

(** ** src/App.tsx: result cache and mode controller *)

Module App.
Import Js Api.

(** [type ModeResult = TimecodeResult | DiagramResult | JsonlResult]; the
    payloads come out of [any]-typed function-call arguments. *)
Inductive ModeResult :=
| TimecodeResult (timecodes : value)
| DiagramResult (mermaid plantuml summary : value)
| JsonlResult (contexts metadata : value).

(** [`${config.provider}:${config.model ?? ''}:${mode}`] *)
Definition cacheKey (config : ProviderConfig) (mode : string) : string :=
  provider_string (provider config) +:+ ":" +:+ default "" (model config)
    +:+ ":" +:+ mode.

(** The [useState] cells of [App] that the controller reads or writes.
    Of the video element only its presence is read. *)
Record AppState := {
  providerConfig : option ProviderConfig;
  vidUrl : option string;
  videoElement : bool;
  file : option UploadedFile;
  resultCache : gmap string ModeResult;
  selectedMode : string;
  isLoading : bool;
  isLoadingVideo : bool;
  isExtractingFrames : bool;
  videoError : bool
}.

(** The state setters. A setter is applied to the state that is current
    when React processes it; [setFile] and [setResultCache] take the
    updater form [(prev) => next]. *)
Definition setProviderConfig (v : option ProviderConfig) (s : AppState) :=
  {| providerConfig := v; vidUrl := vidUrl s; videoElement := videoElement s;
     file := file s; resultCache := resultCache s;
     selectedMode := selectedMode s; isLoading := isLoading s;
     isLoadingVideo := isLoadingVideo s;
     isExtractingFrames := isExtractingFrames s; videoError := videoError s |}.

Definition setVidUrl (v : option string) (s : AppState) :=
  {| providerConfig := providerConfig s; vidUrl := v;
     videoElement := videoElement s;
     file := file s; resultCache := resultCache s;
     selectedMode := selectedMode s; isLoading := isLoading s;
     isLoadingVideo := isLoadingVideo s;
     isExtractingFrames := isExtractingFrames s; videoError := videoError s |}.

Definition setFile (f : option UploadedFile → option UploadedFile) (s : AppState) :=
  {| providerConfig := providerConfig s; vidUrl := vidUrl s;
     videoElement := videoElement s;
     file := f (file s); resultCache := resultCache s;
     selectedMode := selectedMode s; isLoading := isLoading s;
     isLoadingVideo := isLoadingVideo s;
     isExtractingFrames := isExtractingFrames s; videoError := videoError s |}.

Definition setResultCache
    (f : gmap string ModeResult → gmap string ModeResult) (s : AppState) :=
  {| providerConfig := providerConfig s; vidUrl := vidUrl s;
     videoElement := videoElement s;
     file := file s; resultCache := f (resultCache s);
     selectedMode := selectedMode s; isLoading := isLoading s;
     isLoadingVideo := isLoadingVideo s;
     isExtractingFrames := isExtractingFrames s; videoError := videoError s |}.

Definition setSelectedMode (v : string) (s : AppState) :=
  {| providerConfig := providerConfig s; vidUrl := vidUrl s;
     videoElement := videoElement s;
     file := file s; resultCache := resultCache s;
     selectedMode := v; isLoading := isLoading s;
     isLoadingVideo := isLoadingVideo s;
     isExtractingFrames := isExtractingFrames s; videoError := videoError s |}.

Definition setIsLoading (v : bool) (s : AppState) :=
  {| providerConfig := providerConfig s; vidUrl := vidUrl s;
     videoElement := videoElement s;
     file := file s; resultCache := resultCache s;
     selectedMode := selectedMode s; isLoading := v;
     isLoadingVideo := isLoadingVideo s;
     isExtractingFrames := isExtractingFrames s; videoError := videoError s |}.

Definition setIsLoadingVideo (v : bool) (s : AppState) :=
  {| providerConfig := providerConfig s; vidUrl := vidUrl s;
     videoElement := videoElement s;
     file := file s; resultCache := resultCache s;
     selectedMode := selectedMode s; isLoading := isLoading s;
     isLoadingVideo := v;
     isExtractingFrames := isExtractingFrames s; videoError := videoError s |}.

Definition setIsExtractingFrames (v : bool) (s : AppState) :=
  {| providerConfig := providerConfig s; vidUrl := vidUrl s;
     videoElement := videoElement s;
     file := file s; resultCache := resultCache s;
     selectedMode := selectedMode s; isLoading := isLoading s;
     isLoadingVideo := isLoadingVideo s;
     isExtractingFrames := v; videoError := videoError s |}.

Definition setVideoError (v : bool) (s : AppState) :=
  {| providerConfig := providerConfig s; vidUrl := vidUrl s;
     videoElement := videoElement s;
     file := file s; resultCache := resultCache s;
     selectedMode := selectedMode s; isLoading := isLoading s;
     isLoadingVideo := isLoadingVideo s;
     isExtractingFrames := isExtractingFrames s; videoError := v |}.

(** The state [App] starts in. *)
Definition initial : AppState :=
  {| providerConfig := None; vidUrl := None; videoElement := false;
     file := None; resultCache := ∅;
     selectedMode := "Executive Summary"; isLoading := false;
     isLoadingVideo := false; isExtractingFrames := false;
     videoError := false |}.

(** *** Cache helpers (App.tsx, lines 214-229)

    The helpers close over the [providerConfig] and [resultCache] of the
    render they were created in, [snap]. *)
Definition getCached (snap : AppState) (mode : string) : option ModeResult :=
  match providerConfig snap with
  | Some config => resultCache snap !! cacheKey config mode
  | None => None
  end.

Definition setCached (snap : AppState) (mode : string) (result : ModeResult)
  : AppState → AppState :=
  match providerConfig snap with
  | None => id
  | Some config =>
      setResultCache (λ prev, <[cacheKey config mode := result]> prev)
  end.

Definition clearCacheForMode (snap : AppState) (mode : string)
  : AppState → AppState :=
  match providerConfig snap with
  | None => id
  | Some config => setResultCache (λ prev, delete (cacheKey config mode) prev)
  end.

(** *** Asynchronous handlers

    The body of a [try] block: the state updates it has issued so far, in
    order, and how it ended. *)
Record Try (A : Type) := {
  updates : AppState → AppState;
  result : settled A
}.
Arguments updates {A} _.
Arguments result {A} _.

#[export] Instance Try_ret : MRet Try := λ A a,
  {| updates := id; result := Resolved a |}.

#[export] Instance Try_bind : MBind Try := λ A B k m,
  match result m with
  | Resolved a =>
      {| updates := updates (k a) ∘ updates m; result := result (k a) |}
  | Rejected e => {| updates := updates m; result := Rejected e |}
  | StillPending => {| updates := updates m; result := StillPending |}
  end.

(** A call of a state setter. *)
Definition act (u : AppState → AppState) : Try unit :=
  {| updates := u; result := Resolved tt |}.

(** [await p] for a promise that settles as [p]. *)
Definition await {A} (p : settled A) : Try A :=
  {| updates := id; result := p |}.

(** A synchronous computation that may throw. *)
Definition attempt {A} (c : exc A) : Try A :=
  match c with
  | Ok a => mret a
  | Throw e => {| updates := id; result := Rejected e |}
  end.

(** What a handler has done once nothing more can happen: the composed
    state update, the alerts shown, and whether the handler ran to its
    end (it does not when an awaited promise never settles). *)
Record Handled := {
  update : AppState → AppState;
  alerts : list string;
  finished : bool
}.

Definition returns (u : AppState → AppState) : Handled :=
  {| update := u; alerts := []; finished := true |}.

(** [fnMap] of [runMode] (lines 298-314), each callback returning what it
    assigns to [captured]. *)
Definition unescape_text (t : value) : exc value :=
  text ← get "text" t;
  text' ← match text with
          | Undefined | Null => Ok Undefined
          | Str s => Ok (Str (unescape_apostrophes s))
          | _ => Throw TypeError
          end;
  Ok (Obj (own_set "text" text' (spread t))).

Definition set_timecodes (args : value) : exc ModeResult :=
  timecodes ← get "timecodes" args;
  match timecodes with
  | Arr l => mapped ← map_exc unescape_text l; Ok (TimecodeResult (Arr mapped))
  | _ => Throw TypeError
  end.

Definition set_timecodes_with_numeric_values (args : value) : exc ModeResult :=
  timecodes ← get "timecodes" args;
  Ok (TimecodeResult timecodes).

Definition set_workflow_diagrams (args : value) : exc ModeResult :=
  mermaid ← get "mermaid" args;
  plantuml ← get "plantuml" args;
  summary ← get "summary" args;
  Ok (DiagramResult mermaid plantuml summary).

Definition set_jsonl_context (args : value) : exc ModeResult :=
  contexts ← get "contexts" args;
  metadata ← get "metadata" args;
  Ok (JsonlResult contexts metadata).

(** [fnMap[name]] for the own keys of the literal: the callback, which
    answers with what it assigns to [captured]. *)
Definition fnMap (name : string) : option (value → exc ModeResult) :=
  if String.eqb name "set_timecodes" then Some set_timecodes
  else if String.eqb name "set_timecodes_with_objects" then Some set_timecodes
  else if String.eqb name "set_timecodes_with_numeric_values"
    then Some set_timecodes_with_numeric_values
  else if String.eqb name "set_workflow_diagrams" then Some set_workflow_diagrams
  else if String.eqb name "set_jsonl_context" then Some set_jsonl_context
  else None.

Record FunctionCall := {
  call_name : string;
  call_args : value
}.

(** [fnMap[name](args)] for the names that [fnMap], an object literal,
    inherits from [Object.prototype]. Every one of them is truthy, so it
    passes the guard [call && fnMap[call.name]] of line 318 and is called
    at line 319 with [this = fnMap] and the one argument; none assigns
    [captured].
    - [__proto__] is the prototype object, not a function: the call throws.
    - [__defineGetter__] and [__defineSetter__] throw because their second
      argument, here [undefined], is not a function.
    - [hasOwnProperty], [propertyIsEnumerable], [__lookupGetter__] and
      [__lookupSetter__] convert the argument to a property key, which
      throws for some objects, and otherwise return.
    - [constructor] (that is [Object]), [isPrototypeOf], [toString],
      [toLocaleString] and [valueOf] return. *)
Definition Object_prototype (name : string) : option (value → exc unit) :=
  let among names := existsb (String.eqb name) names in
  if among ["__proto__"; "__defineGetter__"; "__defineSetter__"]
  then Some (λ _, Throw TypeError)
  else if among ["hasOwnProperty"; "propertyIsEnumerable";
                 "__lookupGetter__"; "__lookupSetter__"]
  then Some (λ args, if toString_throws args then Throw TypeError else Ok tt)
  else if among ["constructor"; "isPrototypeOf"; "toString";
                 "toLocaleString"; "valueOf"]
  then Some (λ _, Ok tt)
  else None.

(** Lines 317-320: the first function call, if any, is dispatched through
    [fnMap], to an own callback or to an inherited member; the value is
    what [captured] holds afterwards. *)
Definition capture (functionCalls : list FunctionCall) : exc (option ModeResult) :=
  match head functionCalls with
  | Some call =>
      match fnMap (call_name call) with
      | Some callback => r ← callback (call_args call); Ok (Some r)
      | None =>
          match Object_prototype (call_name call) with
          | Some member => _ ← member (call_args call); Ok None
          | None => Ok None
          end
      end
  | None => Ok None
  end.

(** What the awaited calls of [runMode] settle as. *)
Record Env := {
  extractFrames_settles : settled (list string);
  generateContent_settles :
    string → UploadedFile → ProviderConfig → settled (list FunctionCall)
}.

(** [`Analysis error: ${err?.message || 'Unknown error'}`] *)
Definition analysis_alert (message : string) : string :=
  "Analysis error: " +:+
    (if String.eqb message "" then "Unknown error" else message).

(** [Object.keys(modes)] for the table of [src/modes.ts]: the modes that
    the mode buttons offer. *)
Definition mode_names : list string :=
  ["Executive Summary"; "Workflow Steps"; "Diagram"; "JSONL Context"].

Section Controller.
(** The table of [src/modes.ts]: mode name to prompt text. *)
Variable modes : gmap string string.

(** The [try] block of [runMode] (lines 278-322). *)
Definition runMode_try (snap : AppState) (file : UploadedFile)
    (providerConfig : ProviderConfig) (mode : string) (env : Env)
  : Try unit :=
  uploadedFile ←
    (if negb (bool_decide (provider providerConfig = gemini))
        && videoElement snap && negb (has_frames file)
     then
       act (setIsExtractingFrames true);;
       frames ← await (extractFrames_settles env);
       act (setIsExtractingFrames false);;
       let uploadedFile :=
         {| uri := uri file; mimeType := mimeType file;
            frames := Some frames |} in
       act (setFile (λ _, Some uploadedFile));;
       mret uploadedFile
     else mret file);
  prompt ← attempt (match modes !! mode with
                    | Some prompt => Ok prompt
                    | None => Throw TypeError
                    end);
  resp ← await (generateContent_settles env prompt uploadedFile providerConfig);
  captured ← attempt (capture resp);
  match captured with
  | Some result => act (setCached snap mode result)
  | None => mret tt
  end.

(** [runMode] (lines 265-332). *)
Definition runMode (snap : AppState) (mode : string) (force : bool)
    (env : Env) : Handled :=
  match file snap, providerConfig snap with
  | Some file, Some providerConfig =>
      if negb force && bool_decide (is_Some (getCached snap mode)) then
        returns (setSelectedMode mode)
      else
        let body := runMode_try snap file providerConfig mode env in
        let begun := updates body ∘ setIsLoading true ∘ setSelectedMode mode in
        let finally := setIsExtractingFrames false ∘ setIsLoading false in
        match result body with
        | Resolved _ =>
            {| update := finally ∘ begun; alerts := []; finished := true |}
        | Rejected e =>
            {| update := finally ∘ begun;
               alerts := [analysis_alert e]; finished := true |}
        | StillPending =>
            {| update := begun; alerts := []; finished := false |}
        end
  | _, _ => returns id
  end.

End Controller.

(** [uploadVideo] (lines 233-261): [files] is [e.dataTransfer.files],
    [objectUrl] what [URL.createObjectURL] returns, [remote] what the
    Gemini store answers. *)
Definition uploadVideo (snap : AppState) (files : list File)
    (objectUrl : string) (remote : Remote) : Handled :=
  match providerConfig snap, head files with
  | Some providerConfig, Some videoFile =>
      let begun :=
        setVidUrl (Some objectUrl) ∘ setResultCache (λ _, ∅)
          ∘ setVideoError false ∘ setIsLoadingVideo true in
      let body : Try unit :=
        (if bool_decide (provider providerConfig = gemini) then
           res ← await (outcome (uploadFileToGemini videoFile
                                   (apiKey providerConfig) remote));
           act (setFile (λ _, Some res))
         else
           act (setFile (λ _, Some {| uri := objectUrl;
                                      mimeType := file_type videoFile;
                                      frames := Some [] |})));;
        act (setIsLoadingVideo false) in
      match result body with
      | Resolved _ =>
          {| update := updates body ∘ begun; alerts := []; finished := true |}
      | Rejected _ =>
          {| update := setIsLoadingVideo false ∘ setVideoError true
                         ∘ updates body ∘ begun;
             alerts := []; finished := true |}
      | StillPending =>
          {| update := updates body ∘ begun; alerts := []; finished := false |}
      end
  | _, _ => returns id
  end.

(** [handleProviderChange] of [App] (lines 341-356). *)
Definition handleProviderChange (snap : AppState) (config : ProviderConfig)
  : AppState → AppState :=
  match file snap, vidUrl snap with
  | Some _, Some url =>
      if bool_decide (provider config = gemini) then
        setResultCache (λ _, ∅) ∘ setVidUrl None ∘ setFile (λ _, None)
          ∘ setProviderConfig (Some config)
      else
        setFile (λ prev,
                 match prev with
                 | Some prev => Some {| uri := url;
                                        mimeType := mimeType prev;
                                        frames := frames prev |}
                 | None => None
                 end)
          ∘ setProviderConfig (Some config)
  | _, _ => setProviderConfig (Some config)
  end.

(** The provider controls that [App] renders. The [Change] button of the
    provider chip (line 398) is [() => setProviderConfig(null)]; the setup
    screen is mounted as [<ProviderSetup onReady={setProviderConfig} />]
    (line 363), so submitting it calls [setProviderConfig(cfg)]. *)
Definition clickChange : AppState → AppState :=
  setProviderConfig None.

Definition onReady (cfg : ProviderConfig) : AppState → AppState :=
  setProviderConfig (Some cfg).

End App.

(** ** String methods used by the render code and the setup screen *)

Module Text.
Import Stdlib.Strings.Ascii.

(** [s.startsWith(prefix)] *)
Fixpoint startsWith (prefix s : string) : bool :=
  match prefix, s with
  | EmptyString, _ => true
  | String a p, String b r => Ascii.eqb a b && startsWith p r
  | String _ _, EmptyString => false
  end.

(** [s.split(sep)] for a one-character separator: the empty string splits
    into one empty part. *)
Fixpoint split (sep : ascii) (s : string) : list string :=
  match s with
  | EmptyString => [EmptyString]
  | String c r =>
      if Ascii.eqb c sep then EmptyString :: split sep r
      else match split sep r with
           | part :: parts => String c part :: parts
           | [] => [String c EmptyString]
           end
  end.

(** [parts.join(sep)] *)
Fixpoint join (sep : string) (parts : list string) : string :=
  match parts with
  | [] => EmptyString
  | [part] => part
  | part :: rest => part +:+ sep +:+ join sep rest
  end.

(** Text that the user types is inspected character by character, so it
    is kept as the JavaScript string it is: a sequence of UTF-16 code
    units, numbers below 65536. *)
Definition CodeUnits : Type := list N.

(** What [String.prototype.trim] removes, the WhiteSpace and
    LineTerminator code points of ECMAScript: U+0009 to U+000D, U+0020,
    U+00A0, U+1680, U+2000 to U+200A, U+2028, U+2029, U+202F, U+205F,
    U+3000 and U+FEFF. Each of them is a single code unit. *)
Definition is_space (c : N) : bool :=
  ((0x0009 <=? c) && (c <=? 0x000D)
   || (c =? 0x0020) || (c =? 0x00A0) || (c =? 0x1680)
   || (0x2000 <=? c) && (c <=? 0x200A)
   || (c =? 0x2028) || (c =? 0x2029) || (c =? 0x202F) || (c =? 0x205F)
   || (c =? 0x3000) || (c =? 0xFEFF))%N.

Fixpoint trimStart (s : CodeUnits) : CodeUnits :=
  match s with
  | [] => []
  | c :: r => if is_space c then trimStart r else s
  end.

Fixpoint trimEnd (s : CodeUnits) : CodeUnits :=
  match s with
  | [] => []
  | c :: r =>
      match trimEnd r with
      | [] => if is_space c then [] else [c]
      | kept => c :: kept
      end
  end.

(** [s.trim()] *)
Definition trim (s : CodeUnits) : CodeUnits := trimEnd (trimStart s).

End Text.

(** ** src/App.tsx: the render code of [App] *)

Module Views.
Import Stdlib.Strings.Ascii.
Import Js Api App Text.

(** Lines 373-377: the modes that show the cached dot,
<<
    new Set(Object.keys(resultCache)
      .filter((k) => k.startsWith(`${providerConfig.provider}:${providerConfig.model ?? ''}:`))
      .map((k) => k.split(':').slice(2).join(':')))
>>
    The render code runs with a non-null [providerConfig]. The result is a
    [Set], read with [has] only. *)
Definition key_prefix (config : ProviderConfig) : string :=
  provider_string (provider config) +:+ ":" +:+ default "" (model config) +:+ ":".

Definition mode_of_key (k : string) : string :=
  join ":" (drop 2 (split ":"%char k)).

Definition cachedModes (config : ProviderConfig)
    (resultCache : gmap string ModeResult) : gset string :=
  list_to_set
    (mode_of_key
       <$> List.filter (startsWith (key_prefix config))
                       (map_to_list resultCache).*1).

(** [const isCached = cachedModes.has(mode)] (line 406). *)
Definition isCached (config : ProviderConfig)
    (resultCache : gmap string ModeResult) (mode : string) : bool :=
  bool_decide (mode ∈ cachedModes config resultCache).

End Views.

(** ** src/App.tsx: the provider setup screen *)

Module Setup.
Import Js Api Text.

Record ProviderInfo := {
  id_ : Provider;
  label : string;
  defaultModel : string;
  models : list string
}.

Definition PROVIDERS : list ProviderInfo :=
  [ {| id_ := gemini; label := "Google Gemini";
       defaultModel := "gemini-2.5-flash";
       models := ["gemini-2.5-pro"; "gemini-2.5-flash"; "gemini-2.5-flash-lite";
                  "gemini-2.0-flash"; "gemini-2.0-flash-lite"] |};
    {| id_ := openai; label := "OpenAI";
       defaultModel := "gpt-4o";
       models := ["gpt-4.1"; "gpt-4.1-mini"; "gpt-4.1-nano"; "gpt-4o";
                  "gpt-4o-mini"; "o4-mini"; "o3"] |};
    {| id_ := anthropic; label := "Anthropic";
       defaultModel := "claude-opus-4-6";
       models := ["claude-opus-4-6"; "claude-sonnet-4-6"; "claude-haiku-4-5";
                  "claude-opus-4-5"; "claude-sonnet-4-5"] |} ].

(** One entry of the stored configuration, [{ apiKey, model }]. *)
Record StoredEntry := {
  stored_apiKey : CodeUnits;
  stored_model : string
}.

(** [Partial<Record<Provider, { apiKey: string; model: string }>>], what
    [loadStoredConfig] returned for the current render. *)
Definition Stored : Type := Provider → option StoredEntry.

(** [{ ...stored, [p]: entry }] *)
Definition with_entry (stored : Stored) (p : Provider) (entry : StoredEntry)
  : Stored :=
  λ q, if bool_decide (q = p) then Some entry else stored q.

(** The [useState] cells of [ProviderSetup] that the handlers use; [apiKey]
    is the content of the input field. *)
Record SetupState := {
  sel_provider : Provider;
  sel_model : string;
  typed_apiKey : CodeUnits
}.

(** The literal [{ provider, apiKey: apiKey.trim(), model }] of line 115,
    the [ProviderConfig] handed to [onReady]. *)
Record Submitted := {
  cfg_provider : Provider;
  cfg_apiKey : CodeUnits;
  cfg_model : string
}.

(** [a || b] on strings. *)
Definition or_else (a b : string) : string :=
  if String.eqb a "" then b else a.

(** [stored[p]?.apiKey || ''] and [stored[p]?.model || fallback]. *)
Definition stored_key (stored : Stored) (p : Provider) : CodeUnits :=
  from_option stored_apiKey [] (stored p).

Definition stored_model_or (stored : Stored) (p : Provider) (fallback : string)
  : string :=
  or_else (from_option stored_model "" (stored p)) fallback.

(** [PROVIDERS.find((x) => x.id === p)!.defaultModel]; the table has an
    entry for each of the three providers. *)
Definition defaultModel_of (p : Provider) : string :=
  from_option defaultModel ""
    (List.find (λ x, bool_decide (id_ x = p)) PROVIDERS).

(** The initial state of the screen (lines 99-101). *)
Definition initialSetup (stored : Stored) : SetupState :=
  {| sel_provider := gemini;
     sel_model := from_option defaultModel "" (head PROVIDERS);
     typed_apiKey := stored_key stored gemini |}.

(** [handleProviderChange] of [ProviderSetup] (lines 106-111). *)
Definition handleProviderChange (stored : Stored) (p : Provider) : SetupState :=
  {| sel_provider := p;
     sel_model := stored_model_or stored p (defaultModel_of p);
     typed_apiKey := stored_key stored p |}.

(** [handleSubmit] (lines 113-118): nothing happens for a key that is
    empty once trimmed; otherwise the value is what is handed to
    [saveStoredConfig] and to [onReady]. *)
Definition handleSubmit (stored : Stored) (st : SetupState)
  : option (Stored * Submitted) :=
  match trim (typed_apiKey st) with
  | [] => None
  | key =>
      Some (with_entry stored (sel_provider st)
              {| stored_apiKey := key; stored_model := sel_model st |},
            {| cfg_provider := sel_provider st; cfg_apiKey := key;
               cfg_model := sel_model st |})
  end.

End Setup.

(** ** src/api.ts: reading the provider's HTTP response *)

Module Responses.
Import Js Api Text.

(** Truthiness of a value: [if (v)], [a || b]. *)
Definition truthy (v : value) : bool :=
  match v with
  | Undefined | Null => false
  | Bool b => b
  | Num n => negb (n =? 0)%Z
  | Str s => negb (String.eqb s "")
  | Arr _ | Obj _ => true
  end.

(** [v?.k], for a key that no prototype defines: [undefined] unless [v] is
    an object with that own property. *)
Definition get_opt (k : string) (v : value) : value :=
  match v with
  | Obj o => own_get k o
  | _ => Undefined
  end.

(** [v?.[0]] *)
Definition first_opt (v : value) : value :=
  match v with
  | Arr l => default Undefined (head l)
  | Str (String c _) => Str (String c EmptyString)
  | Obj o => own_get "0" o
  | _ => Undefined
  end.

(** What the code reads of the [Response] that [fetch] resolved with:
    [ok], [statusText] and the outcome of [json()], which throws when the
    body is not JSON. *)
Record Response := {
  ok : bool;
  statusText : string;
  json : exc value
}.

(** One element of the [functionCalls] array that an adapter returns. *)
Record RawCall := {
  raw_name : value;
  raw_args : value
}.

Section Builtins.
(** [Number.prototype.toString] and [JSON.parse], built into the engine. *)
Variable number_to_string : Z → string.
Variable JSON_parse : value → exc value.

(** The string that a template literal makes of a value. An array prints
    its elements separated by commas, [null] and [undefined] elements as
    nothing. *)
Fixpoint to_string (v : value) : string :=
  match v with
  | Undefined => "undefined"
  | Null => "null"
  | Bool true => "true"
  | Bool false => "false"
  | Num n => number_to_string n
  | Str s => s
  | Arr l =>
      join ","
        (map (λ x, match x with
                   | Undefined | Null => EmptyString
                   | _ => to_string x
                   end) l)
  | Obj _ => "[object Object]"
  end.

(** The branch [if (!response.ok)] of both adapters (lines 121-124 and
    199-202), for the vendor name in the message:
<<
    const err = await response.json();
    throw new Error(`OpenAI error: ${err.error?.message || response.statusText}`);
>> *)
Definition http_error {A} (vendor : string) (response : Response) : exc A :=
  err ← json response;
  error ← get "error" err;
  let message := get_opt "message" error in
  Throw (vendor +:+ " error: " +:+
         to_string (if truthy message then message
                    else Str (statusText response))).

(** [generateWithOpenAI] from line 121 on. *)
Definition openaiResult (response : Response) : exc (list RawCall) :=
  if negb (ok response) then http_error "OpenAI" response
  else
    data ← json response;
    choices ← get "choices" data;
    let toolCall :=
      first_opt (get_opt "tool_calls" (get_opt "message" (first_opt choices))) in
    if truthy toolCall then
      fn ← get "function" toolCall;
      name ← get "name" fn;
      arguments ← get "arguments" fn;
      args ← JSON_parse arguments;
      Ok [{| raw_name := name; raw_args := args |}]
    else Ok [].

(** [content.find((c) => c.type === 'tool_use')] on the elements of an
    array. *)
Fixpoint find_tool_use (content : list value) : exc value :=
  match content with
  | [] => Ok Undefined
  | c :: rest =>
      t ← get "type" c;
      match t with
      | Str s => if String.eqb s "tool_use" then Ok c else find_tool_use rest
      | _ => find_tool_use rest
      end
  end.

(** [generateWithAnthropic] from line 199 on. Only an array has [find]. *)
Definition anthropicResult (response : Response) : exc (list RawCall) :=
  if negb (ok response) then http_error "Anthropic" response
  else
    data ← json response;
    content ← get "content" data;
    toolUse ← match content with
              | Undefined | Null => Ok Undefined
              | Arr l => find_tool_use l
              | _ => Throw TypeError
              end;
    if truthy toolUse then
      name ← get "name" toolUse;
      input ← get "input" toolUse;
      Ok [{| raw_name := name; raw_args := input |}]
    else Ok [].

End Builtins.

End Responses.

(** ** src/DiagramView.tsx: the PlantUML image URL *)

Module Diagram.
Import Stdlib.Strings.Ascii.

(** The lower-case hexadecimal digit of a number below 16. *)
Definition hex_digit (d : N) : ascii :=
  match d with
  | 0 => "0" | 1 => "1" | 2 => "2" | 3 => "3" | 4 => "4" | 5 => "5"
  | 6 => "6" | 7 => "7" | 8 => "8" | 9 => "9" | 10 => "a" | 11 => "b"
  | 12 => "c" | 13 => "d" | 14 => "e" | _ => "f"
  end%N%char.

(** [b.toString(16)] for a byte. *)
Definition toString16 (b : N) : string :=
  if (b <? 16)%N then String (hex_digit b) EmptyString
  else String (hex_digit (b / 16)) (String (hex_digit (b mod 16)) EmptyString).

(** [s.padStart(2, '0')] *)
Definition padStart2 (s : string) : string :=
  match s with
  | EmptyString => "00"
  | String c EmptyString => String "0" (String c EmptyString)
  | _ => s
  end.

Section Encoder.
(** [new TextEncoder().encode(source)], a built-in of the browser: the
    bytes of the UTF-8 encoding of a JavaScript string, in which every
    unpaired surrogate is encoded as U+FFFD. *)
Variable TextEncoder_encode : Text.CodeUnits → list ascii.

(** [getPlantUMLSvgUrl] (lines 40-48). *)
Definition getPlantUMLSvgUrl (source : Text.CodeUnits) : string :=
  let utf8Bytes := TextEncoder_encode source in
  let hex :=
    Text.join "" (map (λ b, padStart2 (toString16 (N_of_ascii b))) utf8Bytes) in
  "https://www.plantuml.com/plantuml/svg/~h" +:+ hex.

End Encoder.

End Diagram.

(** * Properties *)

Import Stdlib.Strings.Ascii.
Import Js Api App.

(** ** Vocabulary of the statements *)

(** One step down a schema tree: into the sub-schema of a property, or into
    the element schema [items]. *)
Inductive Step :=
| Property (key : string)
| Items.

(** The first entry of an object with the given key. *)
Fixpoint property_of (key : string) (entries : list (string * Schema))
  : option Schema :=
  match entries with
  | [] => None
  | (k, v) :: rest => if String.eqb key k then Some v else property_of key rest
  end.

Definition child (st : Step) (s : Schema) : option Schema :=
  match st with
  | Property key => entries ← properties s; property_of key entries
  | Items => items s
  end.

(** The node that a path of steps leads to, if there is one. *)
Fixpoint descend (path : list Step) (s : Schema) : option Schema :=
  match path with
  | [] => Some s
  | st :: path' => c ← child st s; descend path' c
  end.

(** A string without [:]. *)
Fixpoint no_colon (s : string) : bool :=
  match s with
  | EmptyString => true
  | String c r => negb (Ascii.eqb c ":"%char) && no_colon r
  end.

(** The model part of a cache key: [config.model ?? '']. *)
Definition model_string (config : ProviderConfig) : string :=
  default "" (model config).

(** Whether a run started from [snap] extracts frames (lines 281-282): the
    provider is not Gemini, there is a video element and the file has no
    frames yet. *)
Definition extracts_frames (snap : AppState) (file : UploadedFile)
    (cfg : ProviderConfig) : bool :=
  negb (bool_decide (provider cfg = gemini))
  && videoElement snap && negb (has_frames file).

(** The value of the variable [uploadedFile] when the run reaches the
    provider call of line 316: the file of the state, or that file with the
    frames just extracted. There is none when the extraction does not
    resolve. *)
Definition uploadedFile_at_call (snap : AppState) (file : UploadedFile)
    (cfg : ProviderConfig) (env : Env) : option UploadedFile :=
  if extracts_frames snap file cfg then
    match extractFrames_settles env with
    | Resolved frames =>
        Some {| uri := uri file; mimeType := mimeType file;
                frames := Some frames |}
    | _ => None
    end
  else Some file.

(** How the provider call of a run settles: the one call of
    [generateContent] that the run makes (line 316), with the prompt of
    the mode, the file the run has at that point and the configuration of
    the render. There is none when the run returns before it (no file, no
    configuration, a cache hit) or fails before it. *)
Definition provider_call (modes : gmap string string) (snap : AppState)
    (mode : string) (force : bool) (env : Env)
  : option (settled (list FunctionCall)) :=
  file ← file snap;
  cfg ← providerConfig snap;
  if negb force && bool_decide (is_Some (getCached snap mode)) then None
  else
    uploadedFile ← uploadedFile_at_call snap file cfg env;
    prompt ← modes !! mode;
    Some (generateContent_settles env prompt uploadedFile cfg).

(** The canonical declaration [set_timecodes] of the tool set, with the
    upper-case type tags of the canonical form. *)
Definition set_timecodes_parameters : Schema :=
  mkSchema (Some "OBJECT") None (Some ["timecodes"])
    (Some [("timecodes",
            mkSchema (Some "ARRAY") None None None
              (Some (mkSchema (Some "OBJECT") None (Some ["time"; "text"])
                       (Some [("time", mkSchema (Some "STRING")
                                         (Some "Timecode in MM:SS or HH:MM:SS format")
                                         None None None []);
                              ("text", mkSchema (Some "STRING")
                                         (Some "Description or analysis for this timecode")
                                         None None None [])])
                       None []))
              [])])
    None [].

(** The events of one iteration of the upload poll loop that reads the
    handle [h]: the 5-second timer, the status read, the log line. *)
Definition poll_iteration (name : string) (h : GeminiFile) : list Event :=
  [SetTimeout 5000; FilesGet name; ConsoleLog (state_line h)].

Definition is_timeout (e : Event) : bool :=
  match e with
  | SetTimeout _ => true
  | _ => false
  end.

(** The states that [extractFrames] goes through, for a video and a
    frame count [N]. *)
Section ExtractionStates.
Context {num : Type}.
Variable of_count : nat → num.
Variables times divided_by : num → num → num.
Variable video : @HTMLVideoElement num.
Variable N : nat.

(** The [i]-th timestamp, [i * (duration / maxFrames)]. *)
Definition stamp (i : nat) : num :=
  times (of_count i) (divided_by (duration video) (of_count N)).

(** The state while the [k]-th seek is in flight. *)
Definition in_flight (k : nat) : Extraction :=
  {| ex_frames := frame_at video <$> (stamp <$> seq 0 k);
     currentFrame := k;
     listening := true;
     resolved := false;
     seeking := Some (stamp k);
     seeks := (stamp <$> seq 0 k) ++ [stamp k];
     overlapped := false |}.

(** The state once [N] frames are captured. *)
Definition all_captured : Extraction :=
  {| ex_frames := frame_at video <$> (stamp <$> seq 0 N);
     currentFrame := N;
     listening := false;
     resolved := true;
     seeking := None;
     seeks := stamp <$> seq 0 N;
     overlapped := false |}.

End ExtractionStates.

(** A node as the conversion leaves it: a [type], if any, is a non-empty
    lower-case string, and a [description], if any, is non-empty. *)
Definition clean_node (s : Schema) : bool :=
  match type s with
  | Some t => negb (String.eqb t "") && String.eqb (toLowerCase t) t
  | None => true
  end
  && match description s with
     | Some d => negb (String.eqb d "")
     | None => true
     end.

(** A tree all of whose nodes are clean. *)
Fixpoint normalized (s : Schema) : bool :=
  clean_node s
  && match properties s with
     | Some entries => forallb (λ kv, normalized kv.2) entries
     | None => true
     end
  && match items s with
     | Some it => normalized it
     | None => true
     end.

(** A tree that carries nothing the conversion leaves out: no node has a
    field besides the five that are read, and no [properties] map has the
    own key [__proto__]. *)
Fixpoint only_converted_fields (s : Schema) : bool :=
  match others s with [] => true | _ => false end
  && match properties s with
     | Some entries =>
         forallb (λ kv, defines_own_property kv.1
                        && only_converted_fields kv.2) entries
     | None => true
     end
  && match items s with
     | Some it => only_converted_fields it
     | None => true
     end.

(** The steps of a path that a converted tree can have: all but the step
    into a property named [__proto__]. *)
Definition own_step (st : Step) : bool :=
  match st with
  | Property key => defines_own_property key
  | Items => true
  end.


(** A content block of an Anthropic reply that is a tool use. *)
Definition is_tool_use (c : value) : bool :=
  match c with
  | Obj o =>
      match own_get "type" o with
      | Str s => String.eqb s "tool_use"
      | _ => false
      end
  | _ => false
  end.

Definition nullish (v : value) : bool :=
  match v with
  | Undefined | Null => true
  | _ => false
  end.

(** The value of a lower-case hexadecimal digit: the number below 16 that
    [Diagram.hex_digit] writes as this character, if there is one. *)
Definition hex_value (c : Ascii.ascii) : option N :=
  List.find (λ d, Ascii.eqb (Diagram.hex_digit d) c) (N.of_nat <$> seq 0 16).

(** Reading pairs of hexadecimal digits back into bytes. *)
Fixpoint unhex (s : string) : option (list Ascii.ascii) :=
  match s with
  | EmptyString => Some []
  | String hi (String lo rest) =>
      h ← hex_value hi; l ← hex_value lo; bytes ← unhex rest;
      Some (Ascii.ascii_of_N (16 * h + l) :: bytes)
  | String _ EmptyString => None
  end.

(** ** Schema normalizer *)

Section SchemaInduction.
Variable P : Schema → Prop.
Hypothesis node_case : ∀ t d r ps it os,
  from_option (Forall (λ kv, P kv.2)) True ps →
  from_option P True it →
  P (mkSchema t d r ps it os).

Lemma Schema_nested_ind (s : Schema) : P s.
Proof.
  revert s. fix IH 1. intros [t d r ps it os]. apply node_case.
  - destruct ps as [entries|]; simpl; [|done].
    induction entries as [|[k v] rest IHrest]; constructor; [apply IH | apply IHrest].
  - destruct it as [i|]; simpl; [apply IH | done].
Qed.
End SchemaInduction.

Lemma lower_ascii_idemp c : lower_ascii (lower_ascii c) = lower_ascii c.
Proof. by destruct c as [[] [] [] [] [] [] [] []]. Qed.

Lemma toLowerCase_idemp s : toLowerCase (toLowerCase s) = toLowerCase s.
Proof. induction s as [|c s IH]; simpl; [done|]. by rewrite lower_ascii_idemp, IH. Qed.

Lemma truthy_toLowerCase o :
  truthy_string (toLowerCase <$> o) = truthy_string o.
Proof. by destruct o as [[|c s]|]. Qed.

(** The [properties] of a converted node. *)
Local Abbreviation converted_entries entries :=
  (List.filter (λ kv : string * Schema, defines_own_property kv.1)
     (map (λ kv : string * Schema, (kv.1, convertSchemaNode kv.2)) entries)).

Lemma converted_entries_idemp (entries : list (string * Schema)) :
  Forall (λ kv, convertSchemaNode (convertSchemaNode kv.2)
                = convertSchemaNode kv.2) entries →
  converted_entries (converted_entries entries) = converted_entries entries.
Proof.
  induction 1 as [|[k v] rest Hv _ IH]; simpl; [done|].
  destruct (defines_own_property k) eqn:Hk; simpl; [|done].
  rewrite Hk. simpl in Hv. by rewrite Hv, IH.
Qed.

Lemma convertSchemaNode_idemp s :
  convertSchemaNode (convertSchemaNode s) = convertSchemaNode s.
Proof.
  induction s as [t d r ps it os IHps IHit] using Schema_nested_ind.
  simpl. f_equal.
  - destruct (truthy_string t) eqn:Ht; [|done].
    rewrite truthy_toLowerCase, Ht.
    destruct t as [t|]; simpl; [|done]. by rewrite toLowerCase_idemp.
  - destruct (truthy_string d) eqn:Hd; [|done]. by rewrite Hd.
  - destruct ps as [entries|]; [|done].
    f_equal. by apply converted_entries_idemp.
  - destruct it as [i|]; [|done]. simpl in IHit. by rewrite IHit.
Qed.

Lemma property_of_convert key (entries : list (string * Schema)) :
  defines_own_property key = true →
  property_of key (converted_entries entries)
  = convertSchemaNode <$> property_of key entries.
Proof.
  intros Hkey. induction entries as [|[k v] rest IH]; simpl; [done|].
  destruct (defines_own_property k) eqn:Hk; simpl.
  - by destruct (String.eqb key k).
  - destruct (String.eqb key k) eqn:E; [|done].
    apply String.eqb_eq in E. congruence.
Qed.

(** A converted [properties] map has no own key [__proto__]. *)
Lemma property_of_convert_lost key (entries : list (string * Schema)) :
  defines_own_property key = false →
  property_of key (converted_entries entries) = None.
Proof.
  intros Hkey. induction entries as [|[k v] rest IH]; simpl; [done|].
  destruct (defines_own_property k) eqn:Hk; simpl; [|done].
  destruct (String.eqb key k) eqn:E; [|done].
  apply String.eqb_eq in E. congruence.
Qed.

Lemma child_convert st s :
  own_step st = true →
  child st (convertSchemaNode s) = convertSchemaNode <$> child st s.
Proof.
  destruct s as [t d r ps it os], st as [key|]; simpl; intros Hst.
  - destruct ps as [entries|]; simpl; [|done]. by apply property_of_convert.
  - by destruct it.
Qed.

Lemma child_convert_lost st s :
  own_step st = false → child st (convertSchemaNode s) = None.
Proof.
  destruct s as [t d r ps it os], st as [key|]; simpl; intros Hst; [|done].
  destruct ps as [entries|]; simpl; [|done]. by apply property_of_convert_lost.
Qed.

Lemma descend_convert path s :
  forallb own_step path = true →
  descend path (convertSchemaNode s) = convertSchemaNode <$> descend path s.
Proof.
  revert s. induction path as [|st path IH]; intros s; simpl; [done|].
  intros [Hst Hpath]%andb_prop.
  rewrite child_convert by done.
  destruct (child st s) as [c|]; simpl; [by apply IH|done].
Qed.

Lemma descend_convert_lost path s :
  forallb own_step path = false → descend path (convertSchemaNode s) = None.
Proof.
  revert s. induction path as [|st path IH]; intros s; simpl; [done|].
  destruct (own_step st) eqn:Hst; simpl; intros Hpath.
  - rewrite child_convert by done.
    destruct (child st s) as [c|]; simpl; [by apply IH|done].
  - by rewrite child_convert_lost.
Qed.

Lemma own_path_spec path :
  forallb own_step path = true ↔ Property "__proto__" ∉ path.
Proof.
  induction path as [|st path IH]; simpl.
  - split; [intros _ ?%elem_of_nil; done | done].
  - rewrite andb_true_iff, IH, not_elem_of_cons.
    assert (own_step st = true ↔ Property "__proto__" ≠ st) as ->; [|done].
    destruct st as [key|]; simpl; [|done].
    unfold defines_own_property.
    destruct (String.eqb key "__proto__") eqn:E; simpl.
    + apply String.eqb_eq in E. subst. split; [done|]. by intros [].
    + apply String.eqb_neq in E. split; [|done]. intros _ [= H]. by apply E.
Qed.

Lemma converted_entries_keys (entries : list (string * Schema)) :
  (converted_entries entries).*1
  = List.filter defines_own_property entries.*1.
Proof.
  induction entries as [|[k v] rest IH]; simpl; [done|].
  destruct (defines_own_property k); simpl; [f_equal|]; exact IH.
Qed.

(** C1 (amended). [convertSchemaToOpenAI] is a total function that returns
    the empty object for a null or undefined input. For every node [u] of a
    schema tree [s] that a [path] reaches without stepping into a property
    named [__proto__], at whatever depth, the converted tree has the
    converted [u] at the same path, and the converted [u] carries: the
    lower-cased [type] and the [description] of [u] when they are non-empty
    strings (an empty string is dropped like an absent field), the
    [required] array as it is, a [properties] map with the own keys of [u]
    other than [__proto__] in the same order, the value under each key
    being the converted value, and the converted [items] node. *)
Theorem C1_normalizer_total_and_preserving
    (s : Schema) (path : list Step) (u : Schema) :
  Property "__proto__" ∉ path →
  descend path s = Some u →
  let out := convertSchemaToOpenAI (Some u) in
  convertSchemaToOpenAI None = empty_schema
  ∧ descend path (convertSchemaToOpenAI (Some s)) = Some out
  ∧ (∀ t, type u = Some t → t ≠ "" → type out = Some (toLowerCase t))
  ∧ (type u = None ∨ type u = Some "" → type out = None)
  ∧ (∀ d, description u = Some d → d ≠ "" → description out = Some d)
  ∧ (description u = None ∨ description u = Some "" → description out = None)
  ∧ required out = required u
  ∧ (∀ entries, properties u = Some entries →
       ∃ entries', properties out = Some entries'
         ∧ entries'.*1 = List.filter defines_own_property entries.*1
         ∧ ∀ k, k ≠ "__proto__" →
             property_of k entries'
             = (λ v, convertSchemaToOpenAI (Some v)) <$> property_of k entries)
  ∧ (properties u = None → properties out = None)
  ∧ (∀ it, items u = Some it →
       items out = Some (convertSchemaToOpenAI (Some it)))
  ∧ (items u = None → items out = None).
Proof.
  intros Hown Hpath out. subst out. unfold convertSchemaToOpenAI.
  apply own_path_spec in Hown.
  split; [done|]. split; [by rewrite descend_convert, Hpath|].
  destruct u as [t d r ps it os]; simpl. repeat split.
  - intros t' -> Ht'. by destruct t'.
  - by intros [-> | ->].
  - intros d' -> Hd'. by destruct d'.
  - by intros [-> | ->].
  - intros entries ->. eexists. split; [done|].
    split; [apply converted_entries_keys|].
    intros k Hk. apply property_of_convert.
    unfold defines_own_property. by apply negb_true_iff, String.eqb_neq.
  - by intros ->.
  - by intros it' ->.
  - by intros ->.
Qed.

Lemma C1_normalizer_witness :
  let inner :=
    mkSchema (Some "STRING") (Some "Timecode in MM:SS or HH:MM:SS format")
      None None None [] in
  (Property "__proto__" ∉ [Property "timecodes"; Items; Property "time"])
  ∧ descend [Property "timecodes"; Items; Property "time"] set_timecodes_parameters
    = Some inner
  ∧ descend [Property "timecodes"; Items; Property "time"]
      (convertSchemaToOpenAI (Some set_timecodes_parameters))
    = Some (mkSchema (Some "string") (Some "Timecode in MM:SS or HH:MM:SS format")
              None None None []).
Proof.
  assert (Hown : Property "__proto__"
                 ∉ [Property "timecodes"; Items; Property "time"]).
  { apply own_path_spec. reflexivity. }
  split; [exact Hown|]. split; [reflexivity|].
  exact (proj1 (proj2 (C1_normalizer_total_and_preserving
    set_timecodes_parameters [Property "timecodes"; Items; Property "time"]
    _ Hown eq_refl))).
Defined.

(** C1 as stated fails: a description that is present but empty is not
    preserved, the output has no [description] at all. *)
Lemma C1_empty_description_dropped :
  let s := mkSchema (Some "STRING") (Some "") None None None [] in
  description s = Some ""
  ∧ description (convertSchemaToOpenAI (Some s)) = None
  ∧ ¬ (∀ (n : Schema) (d : string),
         description n = Some d →
         description (convertSchemaToOpenAI (Some n)) = Some d).
Proof.
  repeat split.
  intros H.
  by specialize (H (mkSchema (Some "STRING") (Some "") None None None []) "" eq_refl).
Qed.

(** The key set is not always the same either: an own property key
    [__proto__] of the input, with the whole subtree under it, is missing
    from the output. *)
Lemma convert_loses_proto_key :
  let leaf := mkSchema (Some "STRING") None None None None [] in
  let s := mkSchema (Some "OBJECT") None None
             (Some [("__proto__", leaf); ("time", leaf)]) None [] in
  descend [Property "__proto__"] s = Some leaf
  ∧ descend [Property "__proto__"] (convertSchemaToOpenAI (Some s)) = None
  ∧ fst <$> default [] (properties (convertSchemaToOpenAI (Some s))) = ["time"].
Proof. by repeat split. Qed.

(** C10. The schema normalizer is idempotent: converting the output of a
    conversion, of any node or of a null input, gives that output again. *)
Theorem C10_normalizer_idempotent (schema : option Schema) :
  convertSchemaToOpenAI (Some (convertSchemaToOpenAI schema))
  = convertSchemaToOpenAI schema.
Proof.
  destruct schema as [s|]; simpl; [apply convertSchemaNode_idemp | done].
Qed.

(** ** Frame sub-sampling *)

Lemma filter_index_fmap {A B} (f : A → B) p i (l : list A) :
  filter_index p i (f <$> l) = f <$> filter_index p i l.
Proof.
  revert i. induction l as [|x l IH]; intros i; simpl; [done|].
  destruct (p i); simpl; by rewrite IH.
Qed.

Lemma sampledFrames_fmap {A B} (f : A → B) (l : list A) :
  sampledFrames (f <$> l) = f <$> sampledFrames l.
Proof.
  unfold sampledFrames. by rewrite length_fmap, filter_index_fmap, fmap_take.
Qed.

Lemma list_as_indices {A} (d : A) (l : list A) :
  l = (λ i, nth i l d) <$> seq 0 (length l).
Proof.
  apply list_eq. intros i. rewrite list_lookup_fmap.
  destruct (decide (i < length l)) as [Hi|Hi].
  - rewrite lookup_seq_lt by done. simpl.
    destruct (lookup_lt_is_Some_2 l i Hi) as [x Hx].
    rewrite Hx. f_equal. symmetry. by apply nth_lookup_Some.
  - rewrite lookup_seq_ge by lia. simpl. apply lookup_ge_None. lia.
Qed.

(** The sample of a list is the list read at the sampled indices. *)
Lemma sampledFrames_indices {A} (d : A) (l : list A) :
  sampledFrames l = (λ i, nth i l d) <$> sampledFrames (seq 0 (length l)).
Proof.
  rewrite <- sampledFrames_fmap. by rewrite <- list_as_indices.
Qed.


Lemma filter_index_seq_elem p j n i :
  i ∈ filter_index p j (seq j n) → p i = true ∧ j ≤ i < j + n.
Proof.
  revert j. induction n as [|n IH]; intros j; simpl.
  - by intros ?%elem_of_nil.
  - destruct (p j) eqn:Hp.
    + intros [->|Hi]%elem_of_cons; [split; [done|lia]|].
      apply IH in Hi. split; [tauto|lia].
    + intros Hi. apply IH in Hi. split; [tauto|lia].
Qed.

(** Whatever the length, every index that is kept is a multiple of the
    stride, and at most [maxFrames] are kept. *)
Lemma sampledFrames_only_multiples (L i : nat) :
  i ∈ sampledFrames (seq 0 L) → i < L ∧ i mod step L = 0.
Proof.
  unfold sampledFrames. rewrite length_seq. intros Hi.
  apply elem_of_take in Hi as (k & Hk & _).
  apply list_elem_of_lookup_2, filter_index_seq_elem in Hk as [Hp ?].
  apply Nat.eqb_eq in Hp. split; [lia|done].
Qed.

Lemma filter_index_all {A} p i (l : list A) :
  (∀ j, p j = true) → filter_index p i l = l.
Proof.
  intros Hp. revert i. induction l as [|x l IH]; intros i; simpl; [done|].
  by rewrite Hp, IH.
Qed.

(** With 30 frames, the number [runMode] asks [extractFrames] for, the
    stride is 1 and the sample is the first 20 frames. *)
Lemma sampledFrames_30 {A} (l : list A) :
  length l = 30 → sampledFrames l = take 20 l.
Proof.
  intros H. unfold sampledFrames. rewrite H.
  change (step 30) with 1. rewrite filter_index_all; [done|].
  intros j. apply Nat.eqb_eq, Nat.mod_1_r.
Qed.

Lemma filter_index_app {A} p i (l1 l2 : list A) :
  filter_index p i (l1 ++ l2)
  = filter_index p i l1 ++ filter_index p (i + length l1) l2.
Proof.
  revert i. induction l1 as [|x l1 IH]; intros i; simpl.
  - by rewrite Nat.add_0_r.
  - rewrite IH. replace (S i + length l1) with (i + S (length l1)) by lia.
    by destruct (p i).
Qed.

Lemma filter_index_none p j m :
  (∀ i, j ≤ i < j + m → p i = false) →
  filter_index p j (seq j m) = [].
Proof.
  revert j. induction m as [|m IH]; intros j Hp; simpl; [done|].
  rewrite Hp by lia. apply IH. intros i Hi. apply Hp. lia.
Qed.

(** Filtering the indices [q*s, q*s + 1, ...] for the multiples of [s]. *)
Lemma filter_index_multiples s n q :
  0 < s →
  filter_index (λ i, i mod s =? 0) (q * s) (seq (q * s) n)
  = (λ k, k * s) <$> seq q ((n + s - 1) / s).
Proof.
  intros Hs. revert q.
  induction n as [n IH] using lt_wf_ind. intros q.
  destruct n as [|n'].
  - simpl. rewrite Nat.div_small by lia. done.
  - remember ((S n' + s - 1) / s) as c eqn:Hc.
    cbn [seq filter_index]. rewrite Nat.Div0.mod_mul. cbn [Nat.eqb].
    destruct (decide (S n' ≤ s)) as [Hle|Hgt].
    + rewrite filter_index_none.
      * replace c with 1; [done|].
        subst c. apply Nat.div_unique with (r := n'); lia.
      * intros i Hi. apply Nat.eqb_neq.
        intros Hz. apply Nat.Div0.div_exact in Hz.
        assert (i / s = q ∨ i / s ≤ q - 1 ∨ S q ≤ i / s) as [?|[?|?]] by lia; nia.
    + replace n' with ((s - 1) + (S n' - s)) at 1 by lia.
      rewrite seq_app, filter_index_app, length_seq.
      rewrite filter_index_none.
      * cbn [app]. replace (S (q * s) + (s - 1)) with (S q * s) by lia.
        rewrite (IH (S n' - s)) by lia.
        replace c with (S ((S n' - s + s - 1) / s)); [done|].
        subst c.
        replace (S n' + s - 1) with ((S n' - s + s - 1) + 1 * s) by lia.
        rewrite Nat.div_add by lia. lia.
      * intros i Hi. apply Nat.eqb_neq.
        intros Hz. apply Nat.Div0.div_exact in Hz.
        assert (i / s = q ∨ i / s ≤ q - 1 ∨ S q ≤ i / s) as [?|[?|?]] by lia; nia.
Qed.

Lemma step_pos L : 0 < step L.
Proof. unfold step. lia. Qed.

(** The indices that the routine keeps: the multiples [k * step] of the
    stride, for [k] up to the smaller of the frame count and 20. *)
Lemma sampledFrames_seq (L : nat) :
  sampledFrames (seq 0 L) = (λ k, k * step L) <$> seq 0 (L `min` maxFrames).
Proof.
  unfold sampledFrames. rewrite length_seq.
  pose proof (step_pos L) as Hs.
  pose proof (filter_index_multiples (step L) L 0 Hs) as Hm.
  rewrite Nat.mul_0_l in Hm. rewrite Hm.
  rewrite <- fmap_take, take_seq. do 2 f_equal.
  unfold step, maxFrames in *.
  destruct (decide (L < 20)) as [Hlt|Hge].
  - rewrite (Nat.div_small L 20) by done. simpl Nat.max.
    replace (L + 1 - 1) with L by lia. rewrite Nat.div_1_r. lia.
  - assert (1 ≤ L / 20) by (apply Nat.div_le_lower_bound; lia).
    rewrite Nat.max_r by done.
    assert (20 ≤ (L + L / 20 - 1) / (L / 20)); [|lia].
    apply Nat.div_le_lower_bound; [lia|].
    pose proof (Nat.Div0.mul_div_le L 20). lia.
Qed.




(** ** Anthropic request body *)

Lemma sampledFrames_45 (d : string) (fs : list string) :
  length fs = 45 →
  sampledFrames fs = (λ i, nth (2 * i) fs d) <$> seq 0 20.
Proof.
  intros H. rewrite (sampledFrames_indices d), H.
  by vm_compute.
Qed.

Lemma filter_images_app (images : list ContentBlock) (text : string) :
  Forall (λ b, is_image b = true) images →
  List.filter is_image (images ++ [TextBlock text]) = images
  ∧ List.filter is_text (images ++ [TextBlock text]) = [TextBlock text].
Proof.
  induction 1 as [|b images Hb _ [IH1 IH2]]; simpl; [done|].
  unfold is_text in *. rewrite Hb. simpl. by rewrite IH1, IH2.
Qed.

(** C3. For an uploaded file that carries 45 extracted frames, the body
    that [generateWithAnthropic] sends has one user message whose content
    is 20 image blocks (the frames at indices 0, 2, ..., 38) followed by
    the text block: the content holds exactly 20 image blocks and a single
    text block, and every image block comes before the text block. *)
Theorem C3_anthropic_45_frames_20_images_then_text
    (text : string) (functionDeclarations : list FunctionDeclaration)
    (file : UploadedFile) (model : option string) (fs : list string) :
  frames file = Some fs →
  length fs = 45 →
  let body := anthropicRequest text functionDeclarations file model in
  let images :=
    (λ i, ImageBlock "base64" "image/jpeg" (nth (2 * i) fs "")) <$> seq 0 20 in
  an_messages body = [{| role := "user"; content := images ++ [TextBlock text] |}]
  ∧ length images = 20
  ∧ Forall (λ b, is_image b = true) images
  ∧ List.filter is_image (images ++ [TextBlock text]) = images
  ∧ List.filter is_text (images ++ [TextBlock text]) = [TextBlock text].
Proof.
  intros Hfs Hlen body images.
  assert (Himg : Forall (λ b, is_image b = true) images).
  { subst images. apply Forall_fmap, Forall_forall. done. }
  split; [|split; [by subst images; rewrite length_fmap, length_seq|
           split; [done|by apply filter_images_app]]].
  subst body. unfold anthropicRequest, anthropicUserContent, has_frames, frames_of.
  simpl. rewrite Hfs. simpl.
  destruct fs as [|f fs']; [done|].
  rewrite (sampledFrames_45 "" (f :: fs') Hlen).
  subst images. do 3 f_equal.
Qed.

Lemma C3_anthropic_witness :
  let fs := (λ i, pretty i) <$> seq 0 45 in
  let file := {| uri := "blob:video"; mimeType := "video/mp4"; frames := Some fs |} in
  frames file = Some fs
  ∧ length fs = 45
  ∧ an_messages (anthropicRequest "Describe the workflow." [] file None)
    = [{| role := "user";
          content :=
            ((λ i, ImageBlock "base64" "image/jpeg" (nth (2 * i) fs "")) <$> seq 0 20)
            ++ [TextBlock "Describe the workflow."] |}].
Proof.
  split; [reflexivity|]. split; [reflexivity|].
  exact (proj1 (C3_anthropic_45_frames_20_images_then_text
                  "Describe the workflow." []
                  {| uri := "blob:video"; mimeType := "video/mp4";
                     frames := Some ((λ i, pretty i) <$> seq 0 45) |}
                  None _ eq_refl eq_refl)).
Defined.

(** ** Gemini upload pipeline *)

Lemma state_is_true s h : state_is s h = true ↔ gf_state h = Some s.
Proof.
  unfold state_is. destruct (gf_state h) as [st|]; [|done].
  rewrite String.eqb_eq. split; [by intros -> | by intros [= ->]].
Qed.

Lemma state_is_false s h : state_is s h = false ↔ gf_state h ≠ Some s.
Proof.
  rewrite <- state_is_true. by destruct (state_is s h).
Qed.

Lemma poll_returns_at_once name g replies tr :
  gf_state g ≠ Some "PROCESSING" →
  poll name g replies tr
  = {| outcome := Resolved g; trace := tr; unread := replies |}.
Proof.
  intros Hg%state_is_false. destruct replies as [|[]]; simpl; by rewrite Hg.
Qed.

(** The loop runs once per handle still in [PROCESSING] and stops at the
    first handle that is not, leaving the later replies unread. *)
Lemma poll_stops_at_first_other name g hs final rest tr :
  gf_state g = Some "PROCESSING" →
  Forall (λ h, gf_state h = Some "PROCESSING") hs →
  gf_state final ≠ Some "PROCESSING" →
  poll name g ((Ok <$> hs) ++ Ok final :: rest) tr
  = {| outcome := Resolved final;
       trace := tr ++ mjoin (poll_iteration name <$> (hs ++ [final]));
       unread := rest |}.
Proof.
  intros Hg Hhs Hfinal. revert g tr Hg.
  induction Hhs as [|h hs Hh _ IH]; intros g tr Hg; simpl.
  - apply state_is_true in Hg. rewrite Hg.
    by rewrite poll_returns_at_once by done.
  - apply state_is_true in Hg. rewrite Hg.
    rewrite (IH h _ Hh). by rewrite <- app_assoc.
Qed.

(** While every reply is [PROCESSING] the loop goes on: the promise is not
    settled when the replies are used up. *)
Lemma poll_pending_while_processing name g hs tr :
  gf_state g = Some "PROCESSING" →
  Forall (λ h, gf_state h = Some "PROCESSING") hs →
  outcome (poll name g (Ok <$> hs) tr) = StillPending.
Proof.
  intros Hg Hhs. revert g tr Hg.
  induction Hhs as [|h hs Hh _ IH]; intros g tr Hg%state_is_true; simpl;
    rewrite Hg; [done|]. by apply IH.
Qed.

(** Decide whether the handle [h] is [FAILED] and rewrite the test of the
    code accordingly. *)
Ltac split_on_failed h :=
  let Hf := fresh "Hfailed" in
  destruct (decide (gf_state h = Some "FAILED")) as [Hf|Hf];
  [apply state_is_true in Hf | apply state_is_false in Hf];
  by rewrite Hf.

(** The whole run of [uploadFileToGemini] on a sequence of handles
    [hs ++ [final]], the first being the initial status read. *)
Lemma uploadFileToGemini_run file apiKey uploaded hs final rest :
  Forall (λ h, gf_state h = Some "PROCESSING") hs →
  gf_state final ≠ Some "PROCESSING" →
  let name := gf_name uploaded in
  let polled :=
    [ConsoleLog "Uploading to Gemini Files API...";
     FilesUpload (file_name file) (file_type file); FilesGet name]
    ++ mjoin (poll_iteration name <$> tail (hs ++ [final])) in
  uploadFileToGemini file apiKey
    {| upload_reply := Ok uploaded;
       get_replies := (Ok <$> hs) ++ Ok final :: rest |}
  = if decide (gf_state final = Some "FAILED") then
      {| outcome := Rejected ProcessingError; trace := polled; unread := rest |}
    else
      {| outcome := Resolved {| uri := gf_uri final;
                                mimeType := gf_mimeType final;
                                frames := None |};
         trace := polled ++ [ConsoleLog "Upload complete."];
         unread := rest |}.
Proof.
  intros Hhs Hfinal name polled. unfold uploadFileToGemini. simpl.
  destruct Hhs as [|h hs Hh Hhs]; simpl.
  - rewrite poll_returns_at_once by done. simpl.
    subst polled. simpl. split_on_failed final.
  - rewrite (poll_stops_at_first_other _ h hs final rest) by done. simpl.
    subst polled name. simpl. split_on_failed final.
Qed.

Lemma timeouts_of_iterations name hs :
  List.filter is_timeout (mjoin (poll_iteration name <$> hs))
  = replicate (length hs) (SetTimeout 5000).
Proof.
  induction hs as [|h hs IH]; [done|].
  change (mjoin (poll_iteration name <$> h :: hs))
    with (poll_iteration name h ++ mjoin (poll_iteration name <$> hs)).
  rewrite List.filter_app, IH. done.
Qed.

(** C4. Whatever sequence of processing states the remote store reports,
    if the state at which polling stops (the first one that is not
    [PROCESSING]) is [FAILED], [uploadFileToGemini] rejects with the
    processing error and resolves with no value; for any other final
    state it resolves with the [uri] and [mimeType] of the handle read
    last. *)
Theorem C4_upload_fails_on_FAILED_else_returns_final_handle
    (file : File) (apiKey : string) (uploaded : GeminiFile)
    (hs : list GeminiFile) (final : GeminiFile) (rest : list (exc GeminiFile)) :
  Forall (λ h, gf_state h = Some "PROCESSING") hs →
  gf_state final ≠ Some "PROCESSING" →
  outcome (uploadFileToGemini file apiKey
             {| upload_reply := Ok uploaded;
                get_replies := (Ok <$> hs) ++ Ok final :: rest |})
  = if decide (gf_state final = Some "FAILED")
    then Rejected ProcessingError
    else Resolved {| uri := gf_uri final;
                     mimeType := gf_mimeType final;
                     frames := None |}.
Proof.
  intros Hhs Hfinal.
  rewrite (uploadFileToGemini_run file apiKey uploaded hs final rest Hhs Hfinal).
  by destruct (decide (gf_state final = Some "FAILED")).
Qed.

Lemma C4_upload_witness :
  let processing := {| gf_name := "files/v1"; gf_state := Some "PROCESSING";
                       gf_uri := "https://files/v1"; gf_mimeType := "video/mp4" |} in
  let failed := {| gf_name := "files/v1"; gf_state := Some "FAILED";
                   gf_uri := "https://files/v1"; gf_mimeType := "video/mp4" |} in
  Forall (λ h, gf_state h = Some "PROCESSING") [processing; processing]
  ∧ gf_state failed ≠ Some "PROCESSING"
  ∧ outcome (uploadFileToGemini
               {| file_name := "demo.mp4"; file_type := "video/mp4" |} "k"
               {| upload_reply := Ok processing;
                  get_replies := (Ok <$> [processing; processing])
                                   ++ Ok failed :: [] |})
    = Rejected ProcessingError.
Proof.
  intros processing failed.
  assert (H1 : Forall (λ h, gf_state h = Some "PROCESSING") [processing; processing])
    by (repeat constructor).
  assert (H2 : gf_state failed ≠ Some "PROCESSING") by discriminate.
  split; [exact H1|]. split; [exact H2|].
  exact (C4_upload_fails_on_FAILED_else_returns_final_handle
           {| file_name := "demo.mp4"; file_type := "video/mp4" |} "k"
           processing [processing; processing] failed [] H1 H2).
Defined.

(** C5. The poll loop runs one iteration (a 5000 ms timer, then a status
    read) for every handle that is still [PROCESSING] and stops at the
    first handle that is not, without reading any later reply; there is no
    bound on the number of iterations. If that handle is not [FAILED] the
    promise resolves with its [uri] and [mimeType]. As long as every reply
    is [PROCESSING] the promise stays unsettled. *)
Theorem C5_poll_repeats_while_PROCESSING
    (file : File) (apiKey : string) (uploaded : GeminiFile)
    (hs : list GeminiFile) (final : GeminiFile) (rest : list (exc GeminiFile)) :
  Forall (λ h, gf_state h = Some "PROCESSING") hs →
  gf_state final ≠ Some "PROCESSING" →
  let run := uploadFileToGemini file apiKey
               {| upload_reply := Ok uploaded;
                  get_replies := (Ok <$> hs) ++ Ok final :: rest |} in
  let name := gf_name uploaded in
  trace run
  = [ConsoleLog "Uploading to Gemini Files API...";
     FilesUpload (file_name file) (file_type file); FilesGet name]
    ++ mjoin (poll_iteration name <$> tail (hs ++ [final]))
    ++ (if decide (gf_state final = Some "FAILED") then []
        else [ConsoleLog "Upload complete."])
  ∧ List.filter is_timeout (trace run) = replicate (length hs) (SetTimeout 5000)
  ∧ unread run = rest
  ∧ (gf_state final ≠ Some "FAILED" →
     outcome run = Resolved {| uri := gf_uri final;
                               mimeType := gf_mimeType final;
                               frames := None |})
  ∧ outcome (uploadFileToGemini file apiKey
               {| upload_reply := Ok uploaded; get_replies := Ok <$> hs |})
    = StillPending.
Proof.
  intros Hhs Hfinal run name. subst run.
  rewrite (uploadFileToGemini_run file apiKey uploaded hs final rest Hhs Hfinal).
  assert (Hlen : length (tail (hs ++ [final])) = length hs).
  { destruct hs; simpl; [done|]. rewrite length_app. simpl. lia. }
  repeat split.
  - destruct (decide (gf_state final = Some "FAILED")); simpl;
      by rewrite ?app_nil_r, <- ?app_assoc.
  - destruct (decide (gf_state final = Some "FAILED")); simpl;
      rewrite ?List.filter_app, timeouts_of_iterations, Hlen; simpl;
      by rewrite ?app_nil_r.
  - by destruct (decide (gf_state final = Some "FAILED")).
  - intros Hf. by destruct (decide (gf_state final = Some "FAILED")).
  - unfold uploadFileToGemini. simpl.
    destruct Hhs as [|h hs Hh Hhs]; simpl; [done|].
    by rewrite poll_pending_while_processing.
Qed.

Lemma C5_poll_witness :
  let processing := {| gf_name := "files/v1"; gf_state := Some "PROCESSING";
                       gf_uri := ""; gf_mimeType := "" |} in
  let active := {| gf_name := "files/v1"; gf_state := Some "ACTIVE";
                   gf_uri := "https://files/v1"; gf_mimeType := "video/mp4" |} in
  let run := uploadFileToGemini
               {| file_name := "demo.mp4"; file_type := "video/mp4" |} "k"
               {| upload_reply := Ok processing;
                  get_replies := (Ok <$> [processing; processing])
                                   ++ Ok active :: [] |} in
  Forall (λ h, gf_state h = Some "PROCESSING") [processing; processing]
  ∧ gf_state active ≠ Some "PROCESSING"
  ∧ List.filter is_timeout (trace run) = [SetTimeout 5000; SetTimeout 5000]
  ∧ outcome run = Resolved {| uri := "https://files/v1"; mimeType := "video/mp4";
                              frames := None |}.
Proof.
  intros processing active run.
  assert (H1 : Forall (λ h, gf_state h = Some "PROCESSING") [processing; processing])
    by (repeat constructor).
  assert (H2 : gf_state active ≠ Some "PROCESSING") by discriminate.
  split; [exact H1|]. split; [exact H2|].
  destruct (C5_poll_repeats_while_PROCESSING
              {| file_name := "demo.mp4"; file_type := "video/mp4" |} "k"
              processing [processing; processing] active [] H1 H2)
    as (_ & Htimers & _ & Hout & _).
  split; [exact Htimers|]. apply Hout. discriminate.
Defined.

(** ** Frame sampler *)

Section Extraction.
Context {num : Type}.
Variable of_count : nat → num.
Variables times divided_by : num → num → num.
Variable video : @HTMLVideoElement num.
Variable N : nat.

Local Abbreviation stamp := (stamp of_count times divided_by video N).
Local Abbreviation in_flight := (in_flight of_count times divided_by video N).
Local Abbreviation done_ := (all_captured of_count times divided_by video N).

Lemma start_in_flight :
  0 < N → start of_count times divided_by video N = in_flight 0.
Proof.
  intros HN. unfold start, captureFrame. simpl.
  destruct (Nat.leb_spec N 0); [lia|]. done.
Qed.

Lemma seek_completes_next k :
  S k < N →
  seek_completes of_count times divided_by video N (stamp k) (in_flight k)
  = in_flight (S k).
Proof.
  intros Hk. unfold in_flight. rewrite (seq_S k), !fmap_app.
  unfold seek_completes, onSeeked, captureFrame. simpl.
  destruct (Nat.leb_spec N (S k)); [lia|]. simpl.
  by destruct (Nat.leb_spec N (S k)); [lia|].
Qed.

Lemma seek_completes_last k :
  S k = N →
  seek_completes of_count times divided_by video N (stamp k) (in_flight k)
  = done_.
Proof.
  intros Hk. unfold done_. rewrite <- Hk, (seq_S k), !fmap_app.
  unfold seek_completes, onSeeked, captureFrame. simpl.
  rewrite Nat.leb_refl. simpl. by rewrite Nat.leb_refl.
Qed.

Lemma deliver_in_flight events k :
  k < N → N ≤ k + events →
  deliver of_count times divided_by video N events (in_flight k) = done_.
Proof.
  revert k. induction events as [|e IH]; intros k Hk He; [lia|].
  simpl. destruct (decide (S k = N)) as [Hlast|Hmore].
  - rewrite seek_completes_last by done. by destruct e.
  - rewrite seek_completes_next by lia. apply IH; lia.
Qed.

Lemma deliver_partial events k :
  k + events < N →
  deliver of_count times divided_by video N events (in_flight k)
  = in_flight (k + events).
Proof.
  revert k. induction events as [|e IH]; intros k He; simpl.
  - by rewrite Nat.add_0_r.
  - rewrite seek_completes_next by lia. rewrite IH by lia. f_equal. lia.
Qed.

Lemma extractFrames_done events :
  0 < N → N ≤ events →
  extractFrames of_count times divided_by video N events = done_.
Proof.
  intros HN He. unfold extractFrames. rewrite start_in_flight by done.
  apply deliver_in_flight; lia.
Qed.

Lemma extractFrames_partial events :
  events < N →
  extractFrames of_count times divided_by video N events = in_flight events.
Proof.
  intros He. unfold extractFrames. rewrite start_in_flight by lia.
  by rewrite deliver_partial.
Qed.

End Extraction.

(** The frames that [runMode] extracts (30 of them) and an adapter then
    samples: the frames at the first 20 of the 30 timestamps. *)
Lemma thirty_extracted_frames_sampled
    {num : Type} (of_count : nat → num) (times divided_by : num → num → num)
    (video : @HTMLVideoElement num) (events : nat) :
  30 ≤ events →
  sampledFrames (ex_frames (extractFrames of_count times divided_by video 30 events))
  = frame_at video <$> (stamp of_count times divided_by video 30 <$> seq 0 20).
Proof.
  intros He. rewrite extractFrames_done by lia.
  unfold all_captured. cbn [ex_frames].
  rewrite sampledFrames_30 by (by rewrite !length_fmap, length_seq).
  by rewrite <- !fmap_take.
Qed.

(** C6. For a video of finite duration [d] and a positive [maxFrames = N],
    once the browser has completed [N] seeks [extractFrames] has resolved
    with exactly [N] frames, the frames shown at the positions
    [i * (d / N)] for [i = 0, ..., N-1]; these are the seeks it issued, in
    this order, and none was issued while another was in flight. Before
    that, after [k < N] completed seeks, the promise is unresolved, [k]
    frames are captured and exactly one seek, the one to [k * (d / N)], is
    in flight. *)
Theorem C6_extractFrames_N_frames_at_even_stamps
    {num : Type} (of_count : nat → num) (times divided_by : num → num → num)
    (video : @HTMLVideoElement num) (N events : nat) :
  0 < N →
  N ≤ events →
  let st := extractFrames of_count times divided_by video N events in
  let stamp i := times (of_count i) (divided_by (duration video) (of_count N)) in
  promise st = Resolved (frame_at video <$> (stamp <$> seq 0 N))
  ∧ length (ex_frames st) = N
  ∧ seeks st = stamp <$> seq 0 N
  ∧ overlapped st = false
  ∧ seeking st = None
  ∧ listening st = false
  ∧ ∀ k, k < N →
      let st' := extractFrames of_count times divided_by video N k in
      promise st' = StillPending
      ∧ length (ex_frames st') = k
      ∧ seeking st' = Some (stamp k)
      ∧ seeks st' = (stamp <$> seq 0 k) ++ [stamp k]
      ∧ overlapped st' = false.
Proof.
  intros HN He st stamp. subst st.
  rewrite extractFrames_done by done. simpl.
  repeat split; try done.
  - by rewrite !length_fmap, length_seq.
  - by rewrite extractFrames_partial by done.
  - rewrite extractFrames_partial by done. simpl.
    by rewrite !length_fmap, length_seq.
  - by rewrite extractFrames_partial by done.
  - by rewrite extractFrames_partial by done.
  - by rewrite extractFrames_partial by done.
Qed.

Lemma C6_extractFrames_witness :
  let video := {| duration := 60%Z; frame_at := λ t, pretty t |} in
  let st := extractFrames Z.of_nat Z.mul Z.div video 3 3 in
  0 < 3 ∧ 3 ≤ 3
  ∧ promise st = Resolved ["0"; "20"; "40"]
  ∧ seeks st = [0; 20; 40]%Z.
Proof.
  intros video st. split; [lia|]. split; [lia|].
  destruct (C6_extractFrames_N_frames_at_even_stamps
              Z.of_nat Z.mul Z.div video 3 3 ltac:(lia) ltac:(lia))
    as (Hp & _ & Hs & _).
  split; [exact Hp | exact Hs].
Defined.

(** ** Result cache *)

Lemma append_inv_head (a x y : string) : a +:+ x = a +:+ y → x = y.
Proof. induction a as [|c a IH]; simpl; [done|]. intros [= H]. by apply IH. Qed.

(** A prefix without [:] is determined by the text up to the first [:]. *)
Lemma split_at_first_colon (a b r r' : string) :
  no_colon a = true → no_colon b = true →
  a +:+ ":" +:+ r = b +:+ ":" +:+ r' →
  a = b ∧ r = r'.
Proof.
  revert b. induction a as [|c a IH]; intros [|c' b]; simpl.
  - intros _ _ H. injection H as H. by subst.
  - intros _ [Hc _]%andb_prop H. injection H as Hc' _. by subst c'.
  - intros [Hc _]%andb_prop _ H. injection H as Hc' _. by subst c.
  - intros [_ Ha]%andb_prop [_ Hb]%andb_prop H. injection H as Hc H.
    destruct (IH b Ha Hb H) as [Hab Hr]. by subst.
Qed.

Lemma provider_string_no_colon p : no_colon (provider_string p) = true.
Proof. by destruct p. Qed.

Lemma provider_string_inj p q : provider_string p = provider_string q → p = q.
Proof. by destruct p, q. Qed.

Lemma cacheKey_provider cfgA cfgB modeX modeY :
  cacheKey cfgA modeX = cacheKey cfgB modeY →
  provider cfgA = provider cfgB
  ∧ model_string cfgA +:+ ":" +:+ modeX = model_string cfgB +:+ ":" +:+ modeY.
Proof.
  unfold cacheKey. intros H.
  apply split_at_first_colon in H as [Hp Hr];
    [|apply provider_string_no_colon..].
  split; [by apply provider_string_inj | done].
Qed.

Lemma append_cons c a r : String c a +:+ r = String c (a +:+ r).
Proof. reflexivity. Qed.

Lemma string_length_app a b :
  String.length (a +:+ b) = String.length a + String.length b.
Proof. induction a as [|c a IH]; [done|]. rewrite append_cons. simpl. by rewrite IH. Qed.

Lemma append_inv_tail (a b x : string) : a +:+ x = b +:+ x → a = b.
Proof.
  intros H.
  assert (Hlen : String.length a = String.length b).
  { apply (f_equal String.length) in H. rewrite !string_length_app in H. lia. }
  revert b H Hlen. induction a as [|c a IH]; intros [|c' b]; try done.
  rewrite !append_cons. intros [= -> H] [= Hlen]. f_equal. by apply IH.
Qed.

Lemma no_colon_app_colon (a b : string) : no_colon (a +:+ ":" +:+ b) = false.
Proof.
  induction a as [|c a IH]; [done|].
  rewrite append_cons. simpl. rewrite IH. apply andb_false_r.
Qed.

(** A suffix without [:] is determined by the text after the last [:]. *)
Lemma split_at_last_colon (a b x y : string) :
  no_colon x = true → no_colon y = true →
  a +:+ ":" +:+ x = b +:+ ":" +:+ y →
  a = b ∧ x = y.
Proof.
  intros Hx Hy. revert b. induction a as [|c a IH]; intros [|c' b].
  - intros H. split; [done|]. by apply (append_inv_head ":").
  - rewrite append_cons. intros [= _ H]. change ("" +:+ x) with x in H.
    rewrite H, no_colon_app_colon in Hx. done.
  - rewrite append_cons. intros [= _ H]. change ("" +:+ y) with y in H.
    rewrite <- H, no_colon_app_colon in Hy. done.
  - rewrite !append_cons. intros [= -> H].
    destruct (IH b H) as [-> ->]. done.
Qed.

(** No mode of [src/modes.ts] has a [:] in its name. *)
Lemma mode_names_no_colon mode : mode ∈ mode_names → no_colon mode = true.
Proof.
  unfold mode_names. rewrite !elem_of_cons, elem_of_nil.
  by intros [-> | [-> | [-> | [-> | []]]]].
Qed.

(** When two keys are built from different triples, the key strings
    differ, unless both the models and the modes differ and a [:] occurs
    in a model and in a mode. *)
Lemma cacheKey_distinct cfgA cfgB modeX modeY :
  (provider cfgA, model_string cfgA, modeX)
  ≠ (provider cfgB, model_string cfgB, modeY) →
  provider cfgA ≠ provider cfgB
  ∨ model_string cfgA = model_string cfgB
  ∨ modeX = modeY
  ∨ (no_colon (model_string cfgA) = true ∧ no_colon (model_string cfgB) = true)
  ∨ (no_colon modeX = true ∧ no_colon modeY = true) →
  cacheKey cfgA modeX ≠ cacheKey cfgB modeY.
Proof.
  intros Hne Hcases Hkey. apply cacheKey_provider in Hkey as [Hp Hrest].
  apply Hne.
  destruct Hcases as [Hprov | [Hm | [Hmode | [[HA HB] | [HX HY]]]]].
  - done.
  - rewrite Hm in Hrest. apply append_inv_head, (append_inv_head ":") in Hrest.
    by rewrite Hp, Hm, Hrest.
  - rewrite Hmode in Hrest. apply append_inv_tail in Hrest.
    by rewrite Hp, Hrest, Hmode.
  - apply split_at_first_colon in Hrest as [Hm Hmode]; [|done..].
    by rewrite Hp, Hm, Hmode.
  - apply split_at_last_colon in Hrest as [Hm Hmode]; [|done..].
    by rewrite Hp, Hm, Hmode.
Qed.

(** C9 (amended). Take two distinct cache keys (provider, model, mode),
    the provider being one of the three provider names and an absent model
    counting as the empty string. A result written under the first key is
    not observable under the second, [getCached] for the second key
    returns the same value before and after [setCached] for the first,
    whenever the providers differ, or the models are the same, or the modes
    are the same, or neither model contains [:], or neither mode contains
    [:]. No mode of [src/modes.ts] contains [:], so this covers every
    pair of keys that the mode buttons can form, whatever the model
    strings are. What is left out are keys that differ in both model and
    mode with a [:] in a model and in a mode. *)
Theorem C9_cache_key_isolation
    (cfgA cfgB : ProviderConfig) (modeX modeY : string)
    (result : ModeResult) (snapA s : AppState) :
  providerConfig snapA = Some cfgA →
  (provider cfgA, model_string cfgA, modeX)
  ≠ (provider cfgB, model_string cfgB, modeY) →
  provider cfgA ≠ provider cfgB
  ∨ model_string cfgA = model_string cfgB
  ∨ modeX = modeY
  ∨ (no_colon (model_string cfgA) = true ∧ no_colon (model_string cfgB) = true)
  ∨ (no_colon modeX = true ∧ no_colon modeY = true)
  ∨ (modeX ∈ mode_names ∧ modeY ∈ mode_names) →
  getCached (setProviderConfig (Some cfgB) (setCached snapA modeX result s)) modeY
  = getCached (setProviderConfig (Some cfgB) s) modeY.
Proof.
  intros HA Hne Hcases.
  assert (Hkey : cacheKey cfgA modeX ≠ cacheKey cfgB modeY).
  { apply cacheKey_distinct; [done|].
    destruct Hcases as [?|[?|[?|[?|[?|[HX HY]]]]]]; auto.
    do 4 right. split; by apply mode_names_no_colon. }
  unfold getCached, setCached. rewrite HA. simpl.
  by rewrite lookup_insert_ne.
Qed.

Lemma C9_cache_key_witness :
  let cfgA := {| provider := openai; apiKey := "k"; model := Some "ft:gpt-4o" |} in
  let cfgB := {| provider := openai; apiKey := "k"; model := Some "gpt-4o" |} in
  let r := DiagramResult (Str "sequenceDiagram") (Str "@startuml") Undefined in
  let snapA := setProviderConfig (Some cfgA) initial in
  providerConfig snapA = Some cfgA
  ∧ (provider cfgA, model_string cfgA, "Diagram")
    ≠ (provider cfgB, model_string cfgB, "Diagram")
  ∧ "Diagram" ∈ mode_names
  ∧ getCached (setProviderConfig (Some cfgB) (setCached snapA "Diagram" r snapA))
      "Diagram"
    = getCached (setProviderConfig (Some cfgB) snapA) "Diagram".
Proof.
  intros cfgA cfgB r snapA.
  assert (Hne : (provider cfgA, model_string cfgA, "Diagram")
                ≠ (provider cfgB, model_string cfgB, "Diagram")) by discriminate.
  assert (Hin : "Diagram" ∈ mode_names).
  { unfold mode_names. do 2 apply list_elem_of_further. apply list_elem_of_here. }
  split; [reflexivity|]. split; [exact Hne|]. split; [exact Hin|].
  exact (C9_cache_key_isolation cfgA cfgB "Diagram" "Diagram" r snapA snapA
           eq_refl Hne
           (or_intror (or_intror (or_intror (or_intror (or_intror
              (conj Hin Hin))))))).
Defined.

(** C9 as stated fails for arbitrary strings: the key is the three strings
    joined with [:], so the model [a:b] with the mode [c] and the model [a]
    with the mode [b:c] share one cache slot, and a write under the first
    is read back under the second. *)
Lemma C9_colon_in_model_collides :
  let cfgA := {| provider := openai; apiKey := "k"; model := Some "a:b" |} in
  let cfgB := {| provider := openai; apiKey := "k"; model := Some "a" |} in
  let r := TimecodeResult (Arr []) in
  let snapA := setProviderConfig (Some cfgA) initial in
  (provider cfgA, model_string cfgA, "c") ≠ (provider cfgB, model_string cfgB, "b:c")
  ∧ getCached (setProviderConfig (Some cfgB) snapA) "b:c" = None
  ∧ getCached (setProviderConfig (Some cfgB) (setCached snapA "c" r snapA)) "b:c"
    = Some r.
Proof. by repeat split. Qed.

(** ** Mode controller *)

(** When the provider call of the [try] block throws or returns no
    function call, the block issues no cache update, however its other
    awaited calls settle. *)
Lemma runMode_try_keeps_cache modes snap file cfg mode env s :
  (∀ prompt uploadedFile,
     modes !! mode = Some prompt →
     uploadedFile_at_call snap file cfg env = Some uploadedFile →
     (∃ e, generateContent_settles env prompt uploadedFile cfg = Rejected e)
     ∨ generateContent_settles env prompt uploadedFile cfg = Resolved []) →
  resultCache (updates (runMode_try modes snap file cfg mode env) s)
  = resultCache s.
Proof.
  intros Hfail. unfold runMode_try.
  unfold uploadedFile_at_call, extracts_frames in Hfail.
  destruct (negb (bool_decide (provider cfg = gemini))
            && videoElement snap && negb (has_frames file)).
  - destruct (extractFrames_settles env) as [fs| |]; simpl; try done.
    unfold mbind, Try_bind; simpl.
    destruct (modes !! mode) as [prompt|]; simpl; [|done].
    destruct (Hfail prompt _ eq_refl eq_refl) as [[e ->] | ->]; simpl; done.
  - unfold mbind, Try_bind; simpl.
    destruct (modes !! mode) as [prompt|]; simpl; [|done].
    destruct (Hfail prompt file eq_refl eq_refl) as [[e ->] | ->]; simpl; done.
Qed.

(** A run consults the provider at its one call only: two environments
    that agree on the frame extraction and on how that call settles give
    the same run. *)
Lemma runMode_depends_on_its_call modes snap mode force env1 env2 :
  extractFrames_settles env1 = extractFrames_settles env2 →
  provider_call modes snap mode force env1
  = provider_call modes snap mode force env2 →
  runMode modes snap mode force env1 = runMode modes snap mode force env2.
Proof.
  intros Hext. unfold provider_call, runMode.
  destruct (file snap) as [file|]; simpl; [|done].
  destruct (providerConfig snap) as [cfg|]; simpl; [|done].
  destruct (negb force && bool_decide (is_Some (getCached snap mode))); [done|].
  unfold runMode_try, uploadedFile_at_call, extracts_frames. rewrite <- Hext.
  destruct (negb (bool_decide (provider cfg = gemini))
            && videoElement snap && negb (has_frames file));
    [destruct (extractFrames_settles env1) as [fs| |]; simpl; try done|];
    unfold mbind, Try_bind; simpl;
    (destruct (modes !! mode) as [prompt|]; simpl; [|done]);
    by intros [= ->].
Qed.

(** No setter that [runMode] calls touches [providerConfig]. *)
Lemma runMode_keeps_providerConfig modes snap mode force env s :
  providerConfig (update (runMode modes snap mode force env) s)
  = providerConfig s.
Proof.
  unfold runMode.
  destruct (file snap) as [file|]; [|done].
  destruct (providerConfig snap) as [cfg|] eqn:Hcfg; [|done].
  destruct (negb force && bool_decide (is_Some (getCached snap mode))); [done|].
  assert (Htry : ∀ s0, providerConfig
             (updates (runMode_try modes snap file cfg mode env) s0)
           = providerConfig s0).
  { intros s0. unfold runMode_try, setCached. rewrite Hcfg.
    destruct (negb (bool_decide (provider cfg = gemini))
              && videoElement snap && negb (has_frames file));
      [destruct (extractFrames_settles env) as [fs| |]; simpl; try done|];
      unfold mbind, Try_bind; simpl;
      (destruct (modes !! mode) as [prompt|]; simpl; [|done]);
      (destruct (generateContent_settles env prompt _ cfg) as [resp| |];
         simpl; try done);
      by destruct (capture resp) as [[r|]|]. }
  destruct (result (runMode_try modes snap file cfg mode env));
    simpl; by rewrite ?Htry.
Qed.

(** C7 (amended). Whenever the provider call of a mode run throws or
    returns an empty [functionCalls] list, the run writes nothing to the
    result cache: after it every key holds what it held before. A key
    that was Empty is Empty afterwards, the results under every other key
    are unchanged, and a key that held a result of an earlier run keeps
    that result when a forced re-run fails. Only the call that this run
    makes is assumed to fail; other requests to the provider might
    succeed. *)
Theorem C7_failed_or_empty_run_writes_nothing
    (modes : gmap string string) (snap : AppState) (mode : string)
    (force : bool) (env : Env) :
  (∀ outcome,
     provider_call modes snap mode force env = Some outcome →
     (∃ e, outcome = Rejected e) ∨ outcome = Resolved []) →
  ∀ s : AppState,
    let s' := update (runMode modes snap mode force env) s in
    resultCache s' = resultCache s
    ∧ (∀ m, getCached s' m = getCached s m)
    ∧ (getCached s mode = None → getCached s' mode = None).
Proof.
  intros Hfail s s'.
  assert (Hc : resultCache s' = resultCache s).
  { subst s'. unfold runMode. unfold provider_call in Hfail.
    destruct (file snap) as [file|]; [|done].
    destruct (providerConfig snap) as [cfg|]; [|done].
    simpl in Hfail.
    destruct (negb force && bool_decide (is_Some (getCached snap mode))); [done|].
    assert (Htry : ∀ s0,
      resultCache (updates (runMode_try modes snap file cfg mode env) s0)
      = resultCache s0).
    { intros s0. apply runMode_try_keeps_cache.
      intros prompt uploadedFile Hprompt Hfile.
      apply Hfail. by rewrite Hfile, Hprompt. }
    destruct (result (runMode_try modes snap file cfg mode env));
      simpl; by rewrite ?Htry. }
  assert (Hget : ∀ m, getCached s' m = getCached s m).
  { intros m. unfold getCached. subst s'.
    by rewrite Hc, runMode_keeps_providerConfig. }
  split; [done|]. split; [done|]. intros H. by rewrite Hget.
Qed.

Lemma C7_failed_run_witness :
  let cfg := {| provider := gemini; apiKey := "k"; model := Some "gemini-2.5-flash" |} in
  let snap :=
    setFile (λ _, Some {| uri := "https://files/v1"; mimeType := "video/mp4";
                          frames := None |})
      (setProviderConfig (Some cfg) initial) in
  let call := {| call_name := "set_workflow_diagrams";
                 call_args := Obj [("mermaid", Str "sequenceDiagram");
                                   ("plantuml", Str "@startuml")] |} in
  let env := {| extractFrames_settles := StillPending;
                generateContent_settles := λ prompt _ _,
                  if String.eqb prompt "Draw the workflow."
                  then Rejected "quota exceeded"
                  else Resolved [call] |} in
  let modes : gmap string string :=
    {[ "Diagram" := "Draw the workflow."; "Workflow Steps" := "List the steps." ]} in
  provider_call modes snap "Diagram" false env = Some (Rejected "quota exceeded")
  ∧ provider_call modes snap "Workflow Steps" false env = Some (Resolved [call])
  ∧ alerts (runMode modes snap "Diagram" false env)
    = ["Analysis error: quota exceeded"]
  ∧ resultCache (update (runMode modes snap "Diagram" false env) snap) = ∅.
Proof.
  intros cfg snap call env modes.
  assert (Hcall : provider_call modes snap "Diagram" false env
                  = Some (Rejected "quota exceeded")) by reflexivity.
  assert (Hfail : ∀ outcome,
            provider_call modes snap "Diagram" false env = Some outcome →
            (∃ e, outcome = Rejected e) ∨ outcome = Resolved []).
  { rewrite Hcall. intros outcome [= <-]. left. by exists "quota exceeded". }
  split; [exact Hcall|]. split; [reflexivity|]. split; [reflexivity|].
  exact (proj1 (C7_failed_or_empty_run_writes_nothing
                  modes snap "Diagram" false env Hfail snap)).
Defined.

(** C7 as stated fails: when a key already holds a result and a forced
    re-run of that mode fails, the key is not Empty afterwards, it still
    holds the earlier result. *)
Lemma C7_failed_rerun_keeps_earlier_result :
  let cfg := {| provider := gemini; apiKey := "k"; model := Some "gemini-2.5-flash" |} in
  let earlier := DiagramResult (Str "sequenceDiagram") (Str "@startuml") Undefined in
  let snap :=
    setResultCache (λ _, {[ cacheKey cfg "Diagram" := earlier ]})
      (setFile (λ _, Some {| uri := "https://files/v1"; mimeType := "video/mp4";
                             frames := None |})
         (setProviderConfig (Some cfg) initial)) in
  let env := {| extractFrames_settles := StillPending;
                generateContent_settles := λ _ _ _, Rejected "quota exceeded" |} in
  let modes : gmap string string := {[ "Diagram" := "Draw the workflow." ]} in
  let run := runMode modes snap "Diagram" true env in
  alerts run = ["Analysis error: quota exceeded"]
  ∧ finished run = true
  ∧ getCached (update run snap) "Diagram" = Some earlier
  ∧ getCached (update run snap) "Diagram" ≠ None.
Proof. by repeat split. Qed.

(** A run whose provider call returns [set_timecodes] caches the timecodes
    under the key of the active configuration, with [\'] unescaped. *)
Example runMode_caches_timecodes :
  let cfg := {| provider := openai; apiKey := "k"; model := Some "gpt-4o" |} in
  let snap :=
    setFile (λ _, Some {| uri := "blob:video"; mimeType := "video/mp4";
                          frames := Some ["f0"; "f1"] |})
      (setProviderConfig (Some cfg) initial) in
  let call :=
    {| call_name := "set_timecodes";
       call_args :=
         Obj [("timecodes",
               Arr [Obj [("time", Str "00:01"); ("text", Str "it\'s open")]])] |} in
  let env := {| extractFrames_settles := StillPending;
                generateContent_settles := λ _ _ _, Resolved [call] |} in
  let modes : gmap string string := {[ "Workflow Steps" := "List the steps." ]} in
  resultCache (update (runMode modes snap "Workflow Steps" false env) snap)
  = {[ "openai:gpt-4o:Workflow Steps" :=
         TimecodeResult
           (Arr [Obj [("time", Str "00:01"); ("text", Str "it's open")]]) ]}.
Proof. reflexivity. Qed.

(** ** Cache invalidation *)

(** Dropping a video file while a provider is configured empties the
    result cache, however the upload goes. *)
Lemma uploadVideo_clears_cache snap cfg videoFile files objectUrl remote s :
  providerConfig snap = Some cfg →
  resultCache (update (uploadVideo snap (videoFile :: files) objectUrl remote) s)
  = ∅.
Proof.
  intros Hcfg. unfold uploadVideo. rewrite Hcfg. simpl.
  destruct (bool_decide (provider cfg = gemini)); simpl; [|done].
  unfold mbind, Try_bind; simpl.
  by destruct (outcome (uploadFileToGemini videoFile (apiKey cfg) remote)).
Qed.

(** [handleProviderChange], were it called with a Gemini configuration
    while a video is loaded, would empty the result cache. *)
Lemma handleProviderChange_to_gemini_clears snap config f url s :
  file snap = Some f → vidUrl snap = Some url →
  provider config = gemini →
  resultCache (handleProviderChange snap config s) = ∅.
Proof.
  intros Hf Hu Hp. unfold handleProviderChange. rewrite Hf, Hu, Hp. done.
Qed.

(** Switching the provider with the controls that [App] renders only sets
    [providerConfig]. *)
Lemma setup_switch_keeps_cache (other back : ProviderConfig) (s : AppState) :
  let s' := onReady back (clickChange (onReady other (clickChange s))) in
  resultCache s' = resultCache s
  ∧ file s' = file s
  ∧ vidUrl s' = vidUrl s
  ∧ providerConfig s' = Some back.
Proof. done. Qed.

(** C8, the provider switch as the application performs it. With a Gemini
    configuration, a loaded video and one cached result: the user clicks
    Change, submits the setup screen with OpenAI, clicks Change and submits
    it with Gemini again. The cached result is still there (and so are the
    file handle and the video URL). [handleProviderChange], which would
    have emptied the cache on the way back to Gemini, is not what these
    controls call. A new video does empty the cache. *)
Theorem C8_provider_switch_keeps_cached_result :
  let gem := {| provider := gemini; apiKey := "k"; model := Some "gemini-2.5-flash" |} in
  let oai := {| provider := openai; apiKey := "k2"; model := Some "gpt-4o" |} in
  let earlier := DiagramResult (Str "sequenceDiagram") (Str "@startuml") Undefined in
  let s0 :=
    setResultCache (λ _, {[ cacheKey gem "Diagram" := earlier ]})
      (setFile (λ _, Some {| uri := "https://files/v1"; mimeType := "video/mp4";
                             frames := None |})
         (setVidUrl (Some "blob:video") (setProviderConfig (Some gem) initial))) in
  let switched := onReady gem (clickChange (onReady oai (clickChange s0))) in
  let handled :=
    let s1 := handleProviderChange s0 oai s0 in
    handleProviderChange s1 gem s1 in
  let dropped :=
    update (uploadVideo s0 [{| file_name := "next.mp4"; file_type := "video/mp4" |}]
              "blob:next" {| upload_reply := Throw "rejected"; get_replies := [] |})
      s0 in
  providerConfig switched = Some gem
  ∧ resultCache switched = {[ "gemini:gemini-2.5-flash:Diagram" := earlier ]}
  ∧ getCached switched "Diagram" = Some earlier
  ∧ resultCache handled = ∅
  ∧ resultCache dropped = ∅.
Proof. by repeat split. Qed.

(** * Further properties of the code *)

(** ** Schema normalizer: shape and normal form *)

(** X1. Apart from what hangs under a property named [__proto__], the
    conversion neither removes nor invents a node: a path of property and
    items steps leads to a node of the converted tree exactly when it
    leads to a node of the input and does not step into a property named
    [__proto__], and the node found is the conversion of that input
    node. *)
Theorem X1_normalizer_keeps_tree_shape (s : Schema) (path : list Step) (v : Schema) :
  descend path (convertSchemaToOpenAI (Some s)) = Some v
  ↔ (Property "__proto__" ∉ path)
    ∧ ∃ u, descend path s = Some u ∧ v = convertSchemaToOpenAI (Some u).
Proof.
  simpl. rewrite <- own_path_spec.
  destruct (forallb own_step path) eqn:Hown.
  - rewrite descend_convert by done. split.
    + destruct (descend path s) as [u|]; simpl; [|done].
      intros [= <-]. split; [done|]. by exists u.
    + intros (_ & u & -> & ->). done.
  - rewrite descend_convert_lost by done. split; [done|]. by intros [? _].
Qed.

Lemma convertSchemaNode_clean s : clean_node (convertSchemaNode s) = true.
Proof.
  destruct s as [t d r ps it os]. unfold clean_node. simpl.
  apply andb_true_intro. split.
  - destruct (truthy_string t) eqn:Ht; [|done].
    destruct t as [[|c t]|]; simpl in *; try done.
    by rewrite lower_ascii_idemp, toLowerCase_idemp, Ascii.eqb_refl, String.eqb_refl.
  - destruct (truthy_string d) eqn:Hd; [|done].
    by destruct d as [[|c d]|].
Qed.

Lemma convertSchemaNode_normalized s : normalized (convertSchemaNode s) = true.
Proof.
  induction s as [t d r ps it os IHps IHit] using Schema_nested_ind.
  change (normalized (convertSchemaNode (mkSchema t d r ps it os)))
    with (clean_node (convertSchemaNode (mkSchema t d r ps it os))
          && match properties (convertSchemaNode (mkSchema t d r ps it os)) with
             | Some entries => forallb (λ kv, normalized kv.2) entries
             | None => true
             end
          && match items (convertSchemaNode (mkSchema t d r ps it os)) with
             | Some i => normalized i
             | None => true
             end).
  rewrite convertSchemaNode_clean. simpl.
  apply andb_true_intro. split.
  - destruct ps as [entries|]; [|done]. simpl in IHps.
    induction IHps as [|[k v] rest Hv _ IH]; simpl; [done|].
    destruct (defines_own_property k); simpl; [|done].
    simpl in Hv. by rewrite Hv, IH.
  - destruct it as [i|]; [|done]. done.
Qed.

(** X2. Whatever the input, the output of the conversion is in normal form
    at every depth: no node carries an empty or non-lower-case [type] or
    an empty [description]. *)
Theorem X2_normalizer_output_is_normalized (schema : option Schema) :
  normalized (convertSchemaToOpenAI schema) = true.
Proof.
  destruct schema as [s|]; simpl; [apply convertSchemaNode_normalized | done].
Qed.

Lemma convertSchemaNode_only_converted_fields s :
  only_converted_fields (convertSchemaNode s) = true.
Proof.
  induction s as [t d r ps it os IHps IHit] using Schema_nested_ind.
  change (only_converted_fields (convertSchemaNode (mkSchema t d r ps it os)))
    with (true
          && match properties (convertSchemaNode (mkSchema t d r ps it os)) with
             | Some entries =>
                 forallb (λ kv, defines_own_property kv.1
                                && only_converted_fields kv.2) entries
             | None => true
             end
          && match items (convertSchemaNode (mkSchema t d r ps it os)) with
             | Some i => only_converted_fields i
             | None => true
             end).
  simpl. apply andb_true_intro. split.
  - destruct ps as [entries|]; [|done]. simpl in IHps.
    induction IHps as [|[k v] rest Hv _ IH]; simpl; [done|].
    destruct (defines_own_property k) eqn:Hk; simpl; [|done].
    simpl in Hv. by rewrite Hk, Hv, IH.
  - destruct it as [i|]; [|done]. done.
Qed.

Lemma normalized_fixed s :
  normalized s = true → only_converted_fields s = true →
  convertSchemaNode s = s.
Proof.
  induction s as [t d r ps it os IHps IHit] using Schema_nested_ind.
  intros H Hp. simpl in H, Hp.
  apply andb_prop in H as [H Hit]. apply andb_prop in H as [Hclean Hps].
  apply andb_prop in Hp as [Hp Hpit]. apply andb_prop in Hp as [Hos Hpps].
  unfold clean_node in Hclean. simpl in Hclean.
  apply andb_prop in Hclean as [Ht Hd].
  simpl. f_equal.
  - destruct t as [t|]; simpl; [|done].
    apply andb_prop in Ht as [Hne Hlow]. rewrite Hne.
    apply String.eqb_eq in Hlow. by rewrite Hlow.
  - destruct d as [d|]; simpl; [|done]. by rewrite Hd.
  - destruct ps as [entries|]; [|done]. f_equal. simpl in IHps.
    induction IHps as [|[k v] rest Hv _ IH]; simpl; [done|].
    simpl in Hps, Hpps.
    apply andb_prop in Hps as [Hnv Hrest].
    apply andb_prop in Hpps as [Hkv Hprest].
    apply andb_prop in Hkv as [Hk Hpv].
    simpl in Hv. by rewrite Hk, (Hv Hnv Hpv), (IH Hrest Hprest).
  - destruct it as [i|]; [|done]. simpl in IHit. by rewrite (IHit Hit Hpit).
  - by destruct os.
Qed.

(** X3. The trees that the conversion returns unchanged are exactly the
    trees in normal form that carry nothing the conversion leaves out: at
    every depth a [type] is lower-case and non-empty, a [description] is
    non-empty, the node has no field besides the five that are read, and no
    [properties] map has the key [__proto__]. *)
Theorem X3_normalizer_fixed_points (s : Schema) :
  convertSchemaToOpenAI (Some s) = s
  ↔ normalized s = true ∧ only_converted_fields s = true.
Proof.
  split.
  - intros H. rewrite <- H.
    split; [apply convertSchemaNode_normalized
           | apply convertSchemaNode_only_converted_fields].
  - intros [Hn Hp]. by apply normalized_fixed.
Qed.

(** ** Frame sub-sampling: what is kept *)

Lemma sampledFrames_size {A} (frames : list A) :
  length (sampledFrames frames) = length frames `min` maxFrames.
Proof.
  destruct frames as [|d rest]; [done|].
  rewrite (sampledFrames_indices d), length_fmap, sampledFrames_seq.
  by rewrite length_fmap, length_seq.
Qed.

(** X4. The routine returns exactly [min(L, 20)] frames: all of them when
    there are fewer than 20, and 20 otherwise. *)
Theorem X4_sample_size {A} (frames : list A) :
  length (sampledFrames frames) = length frames `min` maxFrames.
Proof. apply sampledFrames_size. Qed.

(** X5. The frames kept are those at the indices [0, step, 2*step, ...],
    in this order, [min(L, 20)] of them: index [i] is kept exactly when it
    is a multiple of the stride below [20 * step]. *)
Theorem X5_sample_is_strided_prefix {A} (d : A) (frames : list A) :
  sampledFrames frames
  = (λ k, nth (k * step (length frames)) frames d)
      <$> seq 0 (length frames `min` maxFrames).
Proof.
  rewrite (sampledFrames_indices d), sampledFrames_seq.
  by rewrite <- list_fmap_compose.
Qed.

(** X6. A sequence of at most 20 frames is sent whole, unchanged. *)
Theorem X6_short_sequence_untouched {A} (frames : list A) :
  length frames ≤ maxFrames →
  sampledFrames frames = frames.
Proof.
  intros Hlen. unfold sampledFrames, step, maxFrames in *.
  assert (Hs : Nat.max 1 (length frames / 20) = 1).
  { destruct (decide (length frames = 20)) as [->|]; [done|].
    rewrite Nat.div_small by lia. done. }
  rewrite Hs, filter_index_all.
  - by apply take_ge.
  - intros j. apply Nat.eqb_eq, Nat.mod_1_r.
Qed.

Lemma X6_short_sequence_witness :
  length ["f0"; "f1"; "f2"] ≤ maxFrames
  ∧ sampledFrames ["f0"; "f1"; "f2"] = ["f0"; "f1"; "f2"].
Proof.
  assert (H : length ["f0"; "f1"; "f2"] ≤ maxFrames) by (unfold maxFrames; simpl; lia).
  split; [exact H|]. exact (X6_short_sequence_untouched ["f0"; "f1"; "f2"] H).
Defined.

Lemma filter_index_sublist {A} p i (l : list A) :
  filter_index p i l `sublist_of` l.
Proof.
  revert i. induction l as [|x l IH]; intros i; simpl; [done|].
  destruct (p i); [by apply sublist_skip | by apply sublist_cons].
Qed.

(** X7. The sample is a subsequence of the extracted frames: no frame is
    duplicated, invented or moved. *)
Theorem X7_sample_is_subsequence {A} (frames : list A) :
  sampledFrames frames `sublist_of` frames.
Proof.
  unfold sampledFrames.
  etransitivity; [apply sublist_take | apply filter_index_sublist].
Qed.

(** ** Adapters: what is sent for the frames *)

(** X8. For every uploaded file the two frame-based adapters send the same
    sample of its frames in the same order, at most 20 of them: OpenAI as
    [image_url] blocks with a JPEG data URL and detail [high] after the
    text block, Anthropic as base64 [image] blocks before the text block.
    A file without frames gives the text block alone. *)
Theorem X8_adapters_send_the_same_sample (text : string) (file : UploadedFile) :
  let sample := sampledFrames (frames_of file) in
  openaiUserContent text file
  = TextBlock text
    :: ((λ frame, ImageUrlBlock ("data:image/jpeg;base64," +:+ frame) "high")
          <$> sample)
  ∧ anthropicUserContent text file
    = ((λ frame, ImageBlock "base64" "image/jpeg" frame) <$> sample)
      ++ [TextBlock text]
  ∧ length sample = length (frames_of file) `min` 20
  ∧ (has_frames file = false → sample = []).
Proof.
  intros sample. subst sample.
  unfold openaiUserContent, anthropicUserContent, has_frames, frames_of.
  destruct (frames file) as [[|f fs]|]; simpl; repeat split; try done;
    apply (sampledFrames_size (f :: fs)).
Qed.

(** ** Gemini upload pipeline: every script of replies *)



Lemma poll_resolved name g replies tr h :
  outcome (poll name g replies tr) = Resolved h →
  (h = g ∨ Ok h ∈ replies) ∧ gf_state h ≠ Some "PROCESSING".
Proof.
  revert g tr. induction replies as [|[next|e] rest IH]; intros g tr; simpl.
  - destruct (state_is "PROCESSING" g) eqn:Hg; simpl; [done|].
    intros [= <-]. split; [by left | by apply state_is_false].
  - destruct (state_is "PROCESSING" g) eqn:Hg; simpl.
    + intros H. apply IH in H as [[-> | Hin] Hs]; (split; [right|done]).
      * by apply list_elem_of_here.
      * by apply list_elem_of_further.
    + intros [= <-]. split; [by left | by apply state_is_false].
  - destruct (state_is "PROCESSING" g) eqn:Hg; simpl; [done|].
    intros [= <-]. split; [by left | by apply state_is_false].
Qed.

Lemma poll_rejected name g replies tr e :
  outcome (poll name g replies tr) = Rejected e → Throw e ∈ replies.
Proof.
  revert g tr. induction replies as [|[next|e'] rest IH]; intros g tr; simpl.
  - by destruct (state_is "PROCESSING" g).
  - destruct (state_is "PROCESSING" g); simpl; [|done].
    intros H. apply IH in H. by apply list_elem_of_further.
  - destruct (state_is "PROCESSING" g); simpl; [|done].
    intros [= <-]. by apply list_elem_of_here.
Qed.

(** X10. [uploadFileToGemini] never resolves with a file that is still
    processing or has failed: whenever it resolves, the store accepted the
    upload, and the value carries the [uri] and [mimeType] of a handle the
    store returned whose state is neither [PROCESSING] nor [FAILED]; the
    value has no frames. *)
Theorem X10_upload_resolves_only_with_a_ready_handle
    (file : File) (apiKey : string) (remote : Remote) (res : UploadedFile) :
  outcome (uploadFileToGemini file apiKey remote) = Resolved res →
  (∃ uploaded, upload_reply remote = Ok uploaded)
  ∧ frames res = None
  ∧ ∃ h, Ok h ∈ get_replies remote
         ∧ uri res = gf_uri h ∧ mimeType res = gf_mimeType h
         ∧ gf_state h ≠ Some "PROCESSING" ∧ gf_state h ≠ Some "FAILED".
Proof.
  unfold uploadFileToGemini.
  destruct (upload_reply remote) as [uploaded|e]; simpl; [|done].
  destruct (get_replies remote) as [|[first|e] rest]; simpl; try done.
  destruct (outcome (poll _ first rest _)) as [h| |] eqn:Hpoll; simpl;
    try done.
  destruct (state_is "FAILED" h) eqn:Hfailed; simpl; [done|].
  intros [= <-]. simpl.
  apply poll_resolved in Hpoll as [Hin Hstate].
  split; [by eexists|]. split; [done|].
  exists h. repeat split; try done.
  - destruct Hin as [-> | Hin];
      [apply list_elem_of_here | by apply list_elem_of_further].
  - by apply state_is_false.
Qed.

Lemma X10_upload_resolves_witness :
  let active := {| gf_name := "files/v1"; gf_state := Some "ACTIVE";
                   gf_uri := "https://files/v1"; gf_mimeType := "video/mp4" |} in
  let remote := {| upload_reply := Ok active; get_replies := [Ok active] |} in
  let res := {| uri := "https://files/v1"; mimeType := "video/mp4";
                frames := None |} in
  outcome (uploadFileToGemini {| file_name := "a.mp4"; file_type := "video/mp4" |}
             "k" remote) = Resolved res
  ∧ frames res = None.
Proof.
  intros active remote res. split; [reflexivity|].
  exact (proj1 (proj2 (X10_upload_resolves_only_with_a_ready_handle
           {| file_name := "a.mp4"; file_type := "video/mp4" |} "k"
           remote res eq_refl))).
Defined.

(** X11. Every rejection of [uploadFileToGemini] has one of three causes:
    the store rejected the upload, a status read threw, with the error
    passed on unchanged in both cases, or a handle in state [FAILED] was
    read and the error is [File processing failed.]. *)
Theorem X11_upload_rejection_causes
    (file : File) (apiKey : string) (remote : Remote) (e : string) :
  outcome (uploadFileToGemini file apiKey remote) = Rejected e →
  upload_reply remote = Throw e
  ∨ Throw e ∈ get_replies remote
  ∨ (e = "File processing failed."
     ∧ ∃ h, Ok h ∈ get_replies remote ∧ gf_state h = Some "FAILED").
Proof.
  unfold uploadFileToGemini.
  destruct (upload_reply remote) as [uploaded|e0]; simpl;
    [|intros [= <-]; by left].
  destruct (get_replies remote) as [|[first|e0] rest]; simpl; try done.
  - destruct (outcome (poll _ first rest _)) as [h|e0|] eqn:Hpoll; simpl;
      try done.
    + destruct (state_is "FAILED" h) eqn:Hfailed; simpl; [|done].
      intros [= <-]. right. right. split; [done|].
      apply poll_resolved in Hpoll as [Hin _].
      exists h. split; [|by apply state_is_true].
      destruct Hin as [-> | Hin];
        [apply list_elem_of_here | by apply list_elem_of_further].
    + intros [= <-]. right. left.
      apply list_elem_of_further. by apply poll_rejected in Hpoll.
  - intros [= <-]. right. left. apply list_elem_of_here.
Qed.

Lemma X11_upload_rejection_witness :
  let failed := {| gf_name := "files/v1"; gf_state := Some "FAILED";
                   gf_uri := ""; gf_mimeType := "" |} in
  let remote := {| upload_reply := Ok failed; get_replies := [Ok failed] |} in
  outcome (uploadFileToGemini {| file_name := "a.mp4"; file_type := "video/mp4" |}
             "k" remote) = Rejected "File processing failed."
  ∧ (upload_reply remote = Throw "File processing failed."
     ∨ Throw "File processing failed." ∈ get_replies remote
     ∨ ("File processing failed." = "File processing failed."
        ∧ ∃ h, Ok h ∈ get_replies remote ∧ gf_state h = Some "FAILED")).
Proof.
  intros failed remote. split; [reflexivity|].
  exact (X11_upload_rejection_causes
           {| file_name := "a.mp4"; file_type := "video/mp4" |} "k"
           remote "File processing failed." eq_refl).
Defined.

(** ** Frame sampler: the bounds *)

(** X12. With [maxFrames = 0] the promise resolves at once with the empty
    array and no seek is issued, but the [seeked] listener stays
    registered: the next seek that anyone makes on the element appends one
    frame to the array the promise was resolved with, and only then is the
    listener removed. *)
Theorem X12_zero_frames_leaves_the_listener
    {num : Type} (of_count : nat → num) (times divided_by : num → num → num)
    (video : @HTMLVideoElement num) (events : nat) (position : num) :
  let st := extractFrames of_count times divided_by video 0 events in
  let later :=
    seek_completes of_count times divided_by video 0 position
      (set_currentTime position st) in
  promise st = Resolved []
  ∧ seeks st = []
  ∧ listening st = true
  ∧ ex_frames later = [frame_at video position]
  ∧ listening later = false.
Proof. by destruct events. Qed.

(** X13. With a positive [maxFrames], once the promise has resolved the
    listener is gone: a seek made afterwards on the element, by the user
    or the player, captures nothing and changes no counter. *)
Theorem X13_no_capture_after_resolution
    {num : Type} (of_count : nat → num) (times divided_by : num → num → num)
    (video : @HTMLVideoElement num) (N events : nat) (position : num) :
  0 < N →
  N ≤ events →
  let st := extractFrames of_count times divided_by video N events in
  let later :=
    seek_completes of_count times divided_by video N position
      (set_currentTime position st) in
  ex_frames later = ex_frames st
  ∧ currentFrame later = currentFrame st
  ∧ promise later = promise st
  ∧ listening later = false.
Proof.
  intros HN He st later. subst later st.
  by rewrite extractFrames_done by done.
Qed.

Lemma X13_no_capture_witness :
  let video := {| duration := 60%Z; frame_at := λ t, pretty t |} in
  let st := extractFrames Z.of_nat Z.mul Z.div video 3 5 in
  0 < 3 ∧ 3 ≤ 5
  ∧ ex_frames (seek_completes Z.of_nat Z.mul Z.div video 3 7%Z
                 (set_currentTime 7%Z st))
    = ["0"; "20"; "40"].
Proof.
  intros video st. split; [lia|]. split; [lia|].
  exact (proj1 (X13_no_capture_after_resolution
                  Z.of_nat Z.mul Z.div video 3 5 7%Z ltac:(lia) ltac:(lia))).
Defined.

(** ** Result cache: write, read, clear *)

(** X14. A result written for a mode is what [getCached] returns for that
    mode under the same configuration, and a second write for the same
    mode replaces the first: a key holds at most one result. *)
Theorem X14_cache_write_then_read
    (cfg : ProviderConfig) (snap s : AppState) (mode : string)
    (first second : ModeResult) :
  providerConfig snap = Some cfg →
  providerConfig s = Some cfg →
  getCached (setCached snap mode first s) mode = Some first
  ∧ setCached snap mode second (setCached snap mode first s)
    = setCached snap mode second s.
Proof.
  intros Hsnap Hs. unfold getCached, setCached. rewrite Hsnap. simpl.
  rewrite Hs, lookup_insert_eq. split; [done|].
  unfold setResultCache. simpl. by rewrite insert_insert_eq.
Qed.

Lemma X14_cache_write_witness :
  let cfg := {| provider := openai; apiKey := "k"; model := Some "gpt-4o" |} in
  let snap := setProviderConfig (Some cfg) initial in
  let r := TimecodeResult (Arr []) in
  providerConfig snap = Some cfg
  ∧ getCached (setCached snap "Diagram" r snap) "Diagram" = Some r.
Proof.
  intros cfg snap r. split; [reflexivity|].
  exact (proj1 (X14_cache_write_then_read cfg snap snap "Diagram" r r
                  eq_refl eq_refl)).
Defined.

(** X15. [clearCacheForMode] empties the slot of its mode and no other
    slot; applied after a write to a slot that was empty it gives back the
    cache as it was before the write. *)
Theorem X15_clear_removes_one_slot
    (cfg : ProviderConfig) (snap s : AppState) (mode : string)
    (result : ModeResult) :
  providerConfig snap = Some cfg →
  providerConfig s = Some cfg →
  getCached (clearCacheForMode snap mode s) mode = None
  ∧ (∀ key, key ≠ cacheKey cfg mode →
       resultCache (clearCacheForMode snap mode s) !! key = resultCache s !! key)
  ∧ (getCached s mode = None →
     resultCache (clearCacheForMode snap mode (setCached snap mode result s))
     = resultCache s).
Proof.
  intros Hsnap Hs. unfold getCached, clearCacheForMode, setCached.
  rewrite Hsnap. simpl. rewrite Hs. repeat split.
  - apply lookup_delete_eq.
  - intros key Hkey. by apply lookup_delete_ne.
  - intros Hnone. rewrite delete_insert_eq. by apply delete_id.
Qed.

Lemma X15_clear_witness :
  let cfg := {| provider := openai; apiKey := "k"; model := Some "gpt-4o" |} in
  let snap := setProviderConfig (Some cfg) initial in
  let r := TimecodeResult (Arr []) in
  providerConfig snap = Some cfg
  ∧ getCached (clearCacheForMode snap "Diagram" (setCached snap "Diagram" r snap))
      "Diagram" = None.
Proof.
  intros cfg snap r. split; [reflexivity|].
  exact (proj1 (X15_clear_removes_one_slot cfg snap
                  (setCached snap "Diagram" r snap) "Diagram" r
                  eq_refl eq_refl)).
Defined.

(** ** Mode controller: every run *)

(** Case analysis along the [try] block of [runMode]: whether frames are
    extracted and how that settles, whether the mode has a prompt, how the
    provider call settles, what the callback captures. *)
Ltac runMode_try_cases modes snap file cfg mode env :=
  unfold runMode_try;
  destruct (negb (bool_decide (provider cfg = gemini))
            && videoElement snap && negb (has_frames file));
  [destruct (extractFrames_settles env) as [?fs| |]; simpl; try done|];
  unfold mbind, Try_bind; simpl;
  (destruct (modes !! mode) as [?prompt|]; simpl; [|try done]);
  try (destruct (generateContent_settles env _ _ cfg) as [?resp| |];
       simpl; try done;
       destruct (capture _) as [[?r|]|]; simpl; try done).

(** What the [try] block leaves alone. *)
Lemma runMode_try_frame modes snap file cfg mode env s :
  providerConfig snap = Some cfg →
  let s' := updates (runMode_try modes snap file cfg mode env) s in
  providerConfig s' = providerConfig s
  ∧ vidUrl s' = vidUrl s
  ∧ isLoading s' = isLoading s
  ∧ selectedMode s' = selectedMode s
  ∧ ∀ key, key ≠ cacheKey cfg mode →
      resultCache s' !! key = resultCache s !! key.
Proof.
  intros Hcfg s'. subst s'.
  runMode_try_cases modes snap file cfg mode env;
    unfold setCached; rewrite Hcfg; simpl; repeat split; try done;
    intros key Hkey; by rewrite lookup_insert_ne.
Qed.

(** X16. A run never writes under another key than
    [provider:model:mode] of the configuration it was started with, and
    never changes the provider configuration or the video URL, whatever
    the provider answers and whether or not it is forced. *)
Theorem X16_run_touches_only_its_own_key
    (modes : gmap string string) (snap : AppState) (mode : string)
    (force : bool) (env : Env) (s : AppState) (key : string) :
  (∀ cfg, providerConfig snap = Some cfg → key ≠ cacheKey cfg mode) →
  let s' := update (runMode modes snap mode force env) s in
  resultCache s' !! key = resultCache s !! key
  ∧ providerConfig s' = providerConfig s
  ∧ vidUrl s' = vidUrl s.
Proof.
  intros Hkey s'. subst s'. unfold runMode.
  destruct (file snap) as [file|]; [|done].
  destruct (providerConfig snap) as [cfg|] eqn:Hcfg; [|done].
  destruct (negb force && bool_decide (is_Some (getCached snap mode))); [done|].
  specialize (Hkey cfg eq_refl).
  destruct (result (runMode_try modes snap file cfg mode env)); simpl;
    destruct (runMode_try_frame modes snap file cfg mode env
                (setIsLoading true (setSelectedMode mode s)) Hcfg)
      as (Hp & Hu & _ & _ & Hk);
    by rewrite ?Hp, ?Hu, ?(Hk key Hkey).
Qed.

Lemma X16_run_own_key_witness :
  let cfg := {| provider := gemini; apiKey := "k"; model := Some "gemini-2.5-flash" |} in
  let snap :=
    setFile (λ _, Some {| uri := "https://files/v1"; mimeType := "video/mp4";
                          frames := None |})
      (setProviderConfig (Some cfg) initial) in
  let call := {| call_name := "set_workflow_diagrams";
                 call_args := Obj [("mermaid", Str "sequenceDiagram");
                                   ("plantuml", Str "@startuml")] |} in
  let env := {| extractFrames_settles := StillPending;
                generateContent_settles := λ _ _ _, Resolved [call] |} in
  let modes : gmap string string := {[ "Diagram" := "Draw the workflow." ]} in
  (∀ c, providerConfig snap = Some c → "gemini:gemini-2.5-flash:Workflow Steps" ≠ cacheKey c "Diagram")
  ∧ resultCache (update (runMode modes snap "Diagram" false env) snap)
      !! "gemini:gemini-2.5-flash:Workflow Steps" = None.
Proof.
  intros cfg snap call env modes.
  assert (H : ∀ c, providerConfig snap = Some c →
                   "gemini:gemini-2.5-flash:Workflow Steps" ≠ cacheKey c "Diagram").
  { intros c [= <-]. discriminate. }
  split; [exact H|].
  exact (proj1 (X16_run_touches_only_its_own_key modes snap "Diagram" false env
                  snap "gemini:gemini-2.5-flash:Workflow Steps" H)).
Defined.

(** X17. An error is shown once and nothing is cached with it: a run
    raises at most one alert, and a run that raised one has finished and
    left the result cache exactly as it was. *)
Theorem X17_alerted_run_caches_nothing
    (modes : gmap string string) (snap : AppState) (mode : string)
    (force : bool) (env : Env) :
  let run := runMode modes snap mode force env in
  length (alerts run) ≤ 1
  ∧ (alerts run ≠ [] →
     finished run = true
     ∧ ∀ s, resultCache (update run s) = resultCache s).
Proof.
  intros run. subst run. unfold runMode.
  destruct (file snap) as [file|]; [|by split; [simpl; lia|]].
  destruct (providerConfig snap) as [cfg|] eqn:Hcfg; [|by split; [simpl; lia|]].
  destruct (negb force && bool_decide (is_Some (getCached snap mode)));
    [by split; [simpl; lia|]|].
  destruct (result (runMode_try modes snap file cfg mode env)) eqn:Hres;
    simpl; (split; [lia|]); try done.
  intros _. split; [done|]. intros s.
  revert Hres.
  runMode_try_cases modes snap file cfg mode env.
Qed.

(** A function call named after a member that [fnMap] inherits from
    [Object.prototype] is dispatched like a callback: [__proto__] ends in
    the alert, [hasOwnProperty] does when its argument has no string form,
    [toString] returns; nothing is cached in any of these runs. *)
Example run_with_inherited_name :
  let cfg := {| provider := gemini; apiKey := "k"; model := Some "gemini-2.5-flash" |} in
  let snap :=
    setFile (λ _, Some {| uri := "https://files/v1"; mimeType := "video/mp4";
                          frames := None |})
      (setProviderConfig (Some cfg) initial) in
  let answers name args :=
    {| extractFrames_settles := StillPending;
       generateContent_settles := λ _ _ _,
         Resolved [{| call_name := name; call_args := args |}] |} in
  let modes : gmap string string := {[ "Diagram" := "Draw the workflow." ]} in
  let run name args := runMode modes snap "Diagram" false (answers name args) in
  length (alerts (run "__proto__" (Obj []))) = 1
  ∧ length (alerts (run "hasOwnProperty" (Obj [("toString", Str "x")]))) = 1
  ∧ alerts (run "hasOwnProperty" (Obj [("mermaid", Str "x")])) = []
  ∧ alerts (run "toString" (Obj [])) = []
  ∧ alerts (run "set_workflow_diagram" (Obj [])) = []
  ∧ resultCache (update (run "__proto__" (Obj [])) snap) = ∅
  ∧ resultCache (update (run "toString" (Obj [])) snap) = ∅.
Proof. by repeat split. Qed.

(** X18. The loading indicator follows the run: while an awaited call has
    not settled [isLoading] is on, and once the run has finished, by
    success, by an error or by a cache hit, neither [isLoading] nor
    [isExtractingFrames] is left on by it. *)
Theorem X18_loading_flag_follows_the_run
    (modes : gmap string string) (snap : AppState) (mode : string)
    (force : bool) (env : Env) (s : AppState) :
  isLoading s = false →
  isExtractingFrames s = false →
  let run := runMode modes snap mode force env in
  (finished run = true →
   isLoading (update run s) = false ∧ isExtractingFrames (update run s) = false)
  ∧ (finished run = false → isLoading (update run s) = true).
Proof.
  intros Hl He run. subst run. unfold runMode.
  destruct (file snap) as [file|]; [|done].
  destruct (providerConfig snap) as [cfg|] eqn:Hcfg; [|done].
  destruct (negb force && bool_decide (is_Some (getCached snap mode))); [done|].
  destruct (runMode_try_frame modes snap file cfg mode env
              (setIsLoading true (setSelectedMode mode s)) Hcfg)
    as (_ & _ & Hload & _).
  destruct (result (runMode_try modes snap file cfg mode env)); simpl;
    (split; [done|]); done.
Qed.

Lemma X18_loading_flag_witness :
  let cfg := {| provider := gemini; apiKey := "k"; model := None |} in
  let snap :=
    setFile (λ _, Some {| uri := "https://files/v1"; mimeType := "video/mp4";
                          frames := None |})
      (setProviderConfig (Some cfg) initial) in
  let env := {| extractFrames_settles := StillPending;
                generateContent_settles := λ _ _ _, StillPending |} in
  let modes : gmap string string := {[ "Diagram" := "Draw the workflow." ]} in
  let run := runMode modes snap "Diagram" false env in
  isLoading snap = false ∧ isExtractingFrames snap = false
  ∧ finished run = false
  ∧ isLoading (update run snap) = true.
Proof.
  intros cfg snap env modes run.
  split; [reflexivity|]. split; [reflexivity|]. split; [reflexivity|].
  exact (proj2 (X18_loading_flag_follows_the_run modes snap "Diagram" false env
                  snap eq_refl eq_refl) eq_refl).
Defined.

(** A run whose provider call returns a function call that its callback
    accepts. *)
Lemma runMode_success modes snap mode force env f cfg resp r :
  file snap = Some f →
  providerConfig snap = Some cfg →
  provider_call modes snap mode force env = Some (Resolved resp) →
  capture resp = Ok (Some r) →
  let run := runMode modes snap mode force env in
  finished run = true
  ∧ alerts run = []
  ∧ ∀ s, resultCache (update run s) = <[cacheKey cfg mode := r]> (resultCache s)
         ∧ selectedMode (update run s) = mode
         ∧ isLoading (update run s) = false
         ∧ isExtractingFrames (update run s) = false
         ∧ file (update run s)
           = (if extracts_frames snap f cfg
              then uploadedFile_at_call snap f cfg env else file s)
         ∧ providerConfig (update run s) = providerConfig s.
Proof.
  intros Hf Hcfg Hcall Hcap run. subst run.
  unfold provider_call in Hcall. unfold runMode.
  rewrite Hf, Hcfg in *. simpl in Hcall.
  destruct (negb force && bool_decide (is_Some (getCached snap mode)));
    [done|].
  unfold runMode_try, setCached. rewrite Hcfg.
  unfold uploadedFile_at_call, extracts_frames in *.
  destruct (negb (bool_decide (provider cfg = gemini))
            && videoElement snap && negb (has_frames f));
    [destruct (extractFrames_settles env) as [fs| |]; simpl in Hcall; try done|];
    simpl in Hcall; unfold mbind, Try_bind; simpl;
    (destruct (modes !! mode) as [prompt|]; simpl in Hcall; [|done]);
    injection Hcall as Hgen; simpl; rewrite Hgen; simpl; rewrite Hcap; simpl;
    done.
Qed.

(** X19. When the provider call of a run returns a function call that the
    callback of that name accepts, the run finishes without an alert and
    afterwards the slot of the run's key holds the captured result,
    replacing what it held; the mode is selected and the loading flags are
    off. The file is left as it is, unless the run extracted frames: then
    it is the file with these frames. *)
Theorem X19_successful_run_caches_under_its_key
    (modes : gmap string string) (snap : AppState) (mode : string)
    (force : bool) (env : Env) (f : UploadedFile) (cfg : ProviderConfig)
    (resp : list FunctionCall) (r : ModeResult) :
  file snap = Some f →
  providerConfig snap = Some cfg →
  provider_call modes snap mode force env = Some (Resolved resp) →
  capture resp = Ok (Some r) →
  let run := runMode modes snap mode force env in
  finished run = true
  ∧ alerts run = []
  ∧ ∀ s, resultCache (update run s) = <[cacheKey cfg mode := r]> (resultCache s)
         ∧ selectedMode (update run s) = mode
         ∧ isLoading (update run s) = false
         ∧ isExtractingFrames (update run s) = false
         ∧ file (update run s)
           = (if extracts_frames snap f cfg
              then uploadedFile_at_call snap f cfg env else file s).
Proof.
  intros Hf Hcfg Hcall Hcap run.
  destruct (runMode_success modes snap mode force env f cfg resp r
              Hf Hcfg Hcall Hcap) as (Hfin & Hal & Hup).
  split; [done|]. split; [done|]. intros s.
  destruct (Hup s) as (? & ? & ? & ? & ? & _). done.
Qed.

Lemma X19_successful_run_witness :
  let cfg := {| provider := openai; apiKey := "k"; model := Some "gpt-4o" |} in
  let f := {| uri := "blob:video"; mimeType := "video/mp4"; frames := Some [] |} in
  let snap :=
    {| providerConfig := Some cfg; vidUrl := Some "blob:video";
       videoElement := true; file := Some f; resultCache := ∅;
       selectedMode := "Executive Summary"; isLoading := false;
       isLoadingVideo := false; isExtractingFrames := false;
       videoError := false |} in
  let call := {| call_name := "set_workflow_diagrams";
                 call_args := Obj [("mermaid", Str "sequenceDiagram");
                                   ("plantuml", Str "@startuml")] |} in
  let r := DiagramResult (Str "sequenceDiagram") (Str "@startuml") Undefined in
  let env := {| extractFrames_settles := Resolved ["f0"; "f1"];
                generateContent_settles := λ _ _ _, Resolved [call] |} in
  let modes : gmap string string := {[ "Diagram" := "Draw the workflow." ]} in
  let s1 := update (runMode modes snap "Diagram" false env) snap in
  extracts_frames snap f cfg = true
  ∧ capture [call] = Ok (Some r)
  ∧ getCached s1 "Diagram" = Some r
  ∧ file s1 = Some {| uri := "blob:video"; mimeType := "video/mp4";
                      frames := Some ["f0"; "f1"] |}.
Proof.
  intros cfg f snap call r env modes s1.
  split; [reflexivity|]. split; [reflexivity|].
  destruct (X19_successful_run_caches_under_its_key modes snap "Diagram" false
              env f cfg [call] r eq_refl eq_refl eq_refl eq_refl)
    as (_ & _ & H).
  destruct (H snap) as (Hc & _ & _ & _ & Hfile).
  split; [|exact Hfile].
  unfold getCached. subst s1. rewrite Hc. reflexivity.
Defined.

(** X20. After a successful run, asking for the same mode again without
    forcing is answered from the cache: the second run selects the mode
    and returns, it consults neither the frame extraction nor the provider
    (its outcome is the same whatever they would answer), raises no alert
    and leaves the cached result in place. *)
Theorem X20_second_run_is_a_cache_hit
    (modes : gmap string string) (snap : AppState) (mode : string)
    (force : bool) (env env' : Env) (f : UploadedFile) (cfg : ProviderConfig)
    (resp : list FunctionCall) (r : ModeResult) :
  file snap = Some f →
  providerConfig snap = Some cfg →
  provider_call modes snap mode force env = Some (Resolved resp) →
  capture resp = Ok (Some r) →
  let s1 := update (runMode modes snap mode force env) snap in
  getCached s1 mode = Some r
  ∧ runMode modes s1 mode false env' = returns (setSelectedMode mode)
  ∧ getCached (update (runMode modes s1 mode false env') s1) mode = Some r.
Proof.
  intros Hf Hcfg Hcall Hcap s1.
  destruct (runMode_success modes snap mode force env f cfg resp r
              Hf Hcfg Hcall Hcap) as (_ & _ & Hup).
  destruct (Hup snap) as (Hc & _ & _ & _ & Hfile & Hcfg1).
  fold s1 in Hc, Hfile, Hcfg1. rewrite Hcfg in Hcfg1.
  assert (Hf1 : is_Some (file s1)).
  { rewrite Hfile. destruct (extracts_frames snap f cfg); [|by rewrite Hf].
    unfold provider_call in Hcall. rewrite Hf, Hcfg in Hcall. simpl in Hcall.
    destruct (negb force && bool_decide (is_Some (getCached snap mode)));
      [done|].
    by destruct (uploadedFile_at_call snap f cfg env). }
  assert (Hget : getCached s1 mode = Some r).
  { unfold getCached. by rewrite Hcfg1, Hc, lookup_insert_eq. }
  assert (Hhit : runMode modes s1 mode false env' = returns (setSelectedMode mode)).
  { unfold runMode. destruct Hf1 as [f1 ->]. by rewrite Hcfg1, Hget. }
  split; [done|]. split; [done|].
  rewrite Hhit. simpl. unfold getCached in *. simpl. done.
Qed.

Lemma X20_second_run_witness :
  let cfg := {| provider := openai; apiKey := "k"; model := Some "gpt-4o" |} in
  let f := {| uri := "blob:video"; mimeType := "video/mp4"; frames := Some [] |} in
  let snap :=
    {| providerConfig := Some cfg; vidUrl := Some "blob:video";
       videoElement := true; file := Some f; resultCache := ∅;
       selectedMode := "Executive Summary"; isLoading := false;
       isLoadingVideo := false; isExtractingFrames := false;
       videoError := false |} in
  let call := {| call_name := "set_workflow_diagrams";
                 call_args := Obj [("mermaid", Str "sequenceDiagram");
                                   ("plantuml", Str "@startuml")] |} in
  let env := {| extractFrames_settles := Resolved ["f0"; "f1"];
                generateContent_settles := λ _ _ _, Resolved [call] |} in
  let offline := {| extractFrames_settles := Rejected "no video";
                    generateContent_settles := λ _ _ _, Rejected "offline" |} in
  let modes : gmap string string := {[ "Diagram" := "Draw the workflow." ]} in
  let s1 := update (runMode modes snap "Diagram" false env) snap in
  extracts_frames snap f cfg = true
  ∧ alerts (runMode modes s1 "Diagram" false offline) = [].
Proof.
  intros cfg f snap call env offline modes s1. split; [reflexivity|].
  destruct (X20_second_run_is_a_cache_hit modes snap "Diagram" false
              env offline f cfg [call]
              (DiagramResult (Str "sequenceDiagram") (Str "@startuml") Undefined)
              eq_refl eq_refl eq_refl eq_refl) as (_ & Hhit & _).
  subst s1. rewrite Hhit. reflexivity.
Defined.

(** A run for Gemini, or without a video element, or with frames already
    on the file, does not depend on what frame extraction would yield. *)
Lemma runMode_no_extraction modes snap mode force env1 env2 :
  (∀ f cfg, file snap = Some f → providerConfig snap = Some cfg →
            provider cfg = gemini ∨ videoElement snap = false
            ∨ has_frames f = true) →
  generateContent_settles env1 = generateContent_settles env2 →
  runMode modes snap mode force env1 = runMode modes snap mode force env2.
Proof.
  intros Hno Hgen. unfold runMode.
  destruct (file snap) as [f|]; [|done].
  destruct (providerConfig snap) as [cfg|]; [|done].
  assert (negb (bool_decide (provider cfg = gemini))
          && videoElement snap && negb (has_frames f) = false) as Hskip.
  { destruct (Hno f cfg eq_refl eq_refl) as [Hg | [Hv | Hh]].
    - by rewrite bool_decide_eq_true_2.
    - rewrite Hv. by destruct (bool_decide _).
    - rewrite Hh. by rewrite andb_false_r. }
  unfold runMode_try. rewrite Hskip, Hgen. done.
Qed.

(** X21. Frames are extracted when a run for OpenAI or Anthropic finds a
    video element and no frames on the file. What the extraction yields is
    stored on the file before the provider is called, so it stays there
    whatever the provider answers, and it is the file with these frames
    that the provider is called with. With at least one frame stored, a
    later run does not extract again. *)
Theorem X21_frames_are_extracted_once
    (modes : gmap string string) (snap : AppState) (mode : string)
    (force : bool) (env : Env) (f : UploadedFile) (cfg : ProviderConfig)
    (fs : list string) :
  file snap = Some f →
  providerConfig snap = Some cfg →
  provider cfg ≠ gemini →
  videoElement snap = true →
  has_frames f = false →
  force = true ∨ getCached snap mode = None →
  extractFrames_settles env = Resolved fs →
  let f' := {| uri := uri f; mimeType := mimeType f; frames := Some fs |} in
  let run := runMode modes snap mode force env in
  let s1 := update run snap in
  file s1 = Some f'
  ∧ (∀ prompt e, modes !! mode = Some prompt →
       generateContent_settles env prompt f' cfg = Rejected e →
       alerts run = [analysis_alert e])
  ∧ (fs ≠ [] →
     ∀ mode' force' env1 env2,
       generateContent_settles env1 = generateContent_settles env2 →
       runMode modes s1 mode' force' env1 = runMode modes s1 mode' force' env2).
Proof.
  intros Hf Hcfg Hprov Hvid Hnof Hrun Hext f' run s1.
  assert (Hgo : negb force && bool_decide (is_Some (getCached snap mode)) = false).
  { destruct Hrun as [-> | Hnone]; [done|].
    rewrite Hnone. rewrite bool_decide_eq_false_2; [by destruct force|].
    by intros [? ?]. }
  assert (Hneed : negb (bool_decide (provider cfg = gemini))
                  && videoElement snap && negb (has_frames f) = true).
  { by rewrite bool_decide_eq_false_2, Hvid, Hnof. }
  assert (Hfile : file s1 = Some f' ∧ videoElement s1 = videoElement snap
                  ∧ providerConfig s1 = Some cfg).
  { subst s1 run. unfold runMode. rewrite Hf, Hcfg, Hgo.
    unfold runMode_try. rewrite Hneed, Hext.
    unfold mbind, Try_bind; simpl.
    destruct (modes !! mode) as [prompt|]; simpl; [|done].
    destruct (generateContent_settles env prompt _ cfg) as [resp| |];
      simpl; try done.
    destruct (capture resp) as [[r|]|]; simpl; try done.
    unfold setCached. by rewrite Hcfg. }
  destruct Hfile as (Hf1 & Hv1 & Hc1).
  split; [done|]. split.
  - intros prompt e Hprompt Hgen. subst run. unfold runMode.
    rewrite Hf, Hcfg, Hgo. unfold runMode_try. rewrite Hneed, Hext.
    unfold mbind, Try_bind; simpl. rewrite Hprompt. simpl.
    fold f'. by rewrite Hgen.
  - intros Hfs mode' force' env1 env2 Hgen.
    apply runMode_no_extraction; [|done].
    intros f0 cfg0 Hf0 _. right. right.
    rewrite Hf1 in Hf0. injection Hf0 as <-.
    unfold has_frames. simpl. by destruct fs.
Qed.

Lemma X21_frames_extracted_witness :
  let cfg := {| provider := openai; apiKey := "k"; model := Some "gpt-4o" |} in
  let f := {| uri := "blob:video"; mimeType := "video/mp4"; frames := Some [] |} in
  let snap :=
    {| providerConfig := Some cfg; vidUrl := Some "blob:video";
       videoElement := true; file := Some f; resultCache := ∅;
       selectedMode := "Diagram"; isLoading := false; isLoadingVideo := false;
       isExtractingFrames := false; videoError := false |} in
  let env := {| extractFrames_settles := Resolved ["f0"; "f1"];
                generateContent_settles := λ _ _ _, Rejected "quota exceeded" |} in
  let modes : gmap string string := {[ "Diagram" := "Draw the workflow." ]} in
  has_frames f = false
  ∧ file (update (runMode modes snap "Diagram" false env) snap)
    = Some {| uri := "blob:video"; mimeType := "video/mp4";
              frames := Some ["f0"; "f1"] |}.
Proof.
  intros cfg f snap env modes. split; [reflexivity|].
  exact (proj1 (X21_frames_are_extracted_once modes snap "Diagram" false env
                  f cfg ["f0"; "f1"] eq_refl eq_refl ltac:(discriminate)
                  eq_refl eq_refl (or_intror eq_refl) eq_refl)).
Defined.

(** ** Callbacks: what is captured from a function call *)

Lemma own_get_own_set_eq k v o : own_get k (own_set k v o) = v.
Proof.
  induction o as [|[k' v'] o IH]; simpl.
  - by rewrite String.eqb_refl.
  - destruct (String.eqb k k') eqn:Hk; simpl; [by rewrite String.eqb_refl|].
    by rewrite Hk.
Qed.

Lemma own_get_own_set_ne k k' v o :
  k ≠ k' → own_get k' (own_set k v o) = own_get k' o.
Proof.
  intros Hne.
  assert (Hf : String.eqb k' k = false) by (apply String.eqb_neq; congruence).
  induction o as [|[k0 v0] o IH]; simpl.
  - by rewrite Hf.
  - destruct (String.eqb k k0) eqn:Hk; simpl.
    + apply String.eqb_eq in Hk as <-. by rewrite Hf.
    + by rewrite IH.
Qed.

Lemma unescape_text_object fields t :
  own_get "text" fields = Str t →
  unescape_text (Obj fields)
  = Ok (Obj (own_set "text" (Str (unescape_apostrophes t)) fields)).
Proof.
  intros Ht. unfold unescape_text, get, mbind, exc_bind. by rewrite Ht.
Qed.

(** The entries that [set_timecodes] produces from entries that are
    objects with a string [text]. *)
Lemma map_unescape_text items :
  Forall (λ item, ∃ fields t, item = Obj fields ∧ own_get "text" fields = Str t)
         items →
  ∃ items',
    map_exc unescape_text items = Ok items'
    ∧ Forall2 (λ item item', ∃ fields t,
                 item = Obj fields ∧ own_get "text" fields = Str t
                 ∧ item' = Obj (own_set "text" (Str (unescape_apostrophes t)) fields))
              items items'.
Proof.
  induction 1 as [|item items (fields & t & -> & Ht) _ (items' & Hmap & Hall)].
  - exists []. split; [done|constructor].
  - eexists (_ :: items'). split.
    + change (map_exc unescape_text (Obj fields :: items))
        with (y ← unescape_text (Obj fields);
              ys ← map_exc unescape_text items; Ok (y :: ys)).
      by rewrite (unescape_text_object fields t Ht), Hmap.
    + constructor; [|done]. by exists fields, t.
Qed.

(** X22. For a [set_timecodes] (or [set_timecodes_with_objects]) call
    whose [timecodes] are objects with a string [text], the result captured
    has one entry per timecode in the same order; in each entry the [text]
    has every backslash-apostrophe pair replaced by an apostrophe and every
    other field ([time], [objects], ...) is as the provider sent it. *)
Theorem X22_timecodes_keep_all_but_text
    (name : string) (o : list (string * value)) (items : list value) :
  name = "set_timecodes" ∨ name = "set_timecodes_with_objects" →
  own_get "timecodes" o = Arr items →
  Forall (λ item, ∃ fields t, item = Obj fields ∧ own_get "text" fields = Str t)
         items →
  ∃ items',
    capture [{| call_name := name; call_args := Obj o |}]
    = Ok (Some (TimecodeResult (Arr items')))
    ∧ length items' = length items
    ∧ ∀ i fields, items !! i = Some (Obj fields) →
        ∃ fields' t,
          items' !! i = Some (Obj fields')
          ∧ own_get "text" fields = Str t
          ∧ own_get "text" fields' = Str (unescape_apostrophes t)
          ∧ ∀ k, k ≠ "text" → own_get k fields' = own_get k fields.
Proof.
  intros Hname Htc Hitems.
  destruct (map_unescape_text items Hitems) as (items' & Hmap & Hall).
  exists items'. split; [|split].
  - unfold capture. simpl.
    assert (fnMap name = Some set_timecodes) as ->
      by (by destruct Hname as [-> | ->]).
    unfold set_timecodes. simpl. rewrite Htc. simpl. by rewrite Hmap.
  - symmetry. by eapply Forall2_length.
  - intros i fields Hi.
    destruct (Forall2_lookup_l _ _ _ _ _ Hall Hi)
      as (item' & Hi' & fields0 & t & [= <-] & Ht & ->).
    exists (own_set "text" (Str (unescape_apostrophes t)) fields), t.
    split; [done|]. split; [done|]. split.
    + apply own_get_own_set_eq.
    + intros k Hk. apply own_get_own_set_ne. by apply not_eq_sym.
Qed.

Lemma X22_timecodes_witness :
  let o := [("timecodes",
             Arr [Obj [("time", Str "00:05"); ("text", Str "it\'s saved")]])] in
  own_get "timecodes" o
    = Arr [Obj [("time", Str "00:05"); ("text", Str "it\'s saved")]]
  ∧ ∃ items',
      capture [{| call_name := "set_timecodes"; call_args := Obj o |}]
      = Ok (Some (TimecodeResult (Arr items')))
      ∧ length items' = 1.
Proof.
  intros o. split; [reflexivity|].
  destruct (X22_timecodes_keep_all_but_text "set_timecodes" o
              [Obj [("time", Str "00:05"); ("text", Str "it\'s saved")]]
              (or_introl eq_refl) eq_refl)
    as (items' & Hcap & Hlen & _).
  { constructor; [|constructor]. by eexists _, _. }
  exists items'. split; [exact Hcap | exact Hlen].
Defined.

(** ** Video upload handler *)

(** X23. Dropping a video while OpenAI or Anthropic is configured involves
    no upload: whatever the Gemini store would answer, the handler finishes
    with the local object URL as the file and as the video URL, an empty
    frame list (so the first run extracts), an empty result cache and the
    loading and error flags off. *)
Theorem X23_local_video_for_frame_providers
    (snap : AppState) (cfg : ProviderConfig) (videoFile : File)
    (files : list File) (objectUrl : string) (remote : Remote) (s : AppState) :
  providerConfig snap = Some cfg →
  provider cfg ≠ gemini →
  let h := uploadVideo snap (videoFile :: files) objectUrl remote in
  finished h = true
  ∧ file (update h s) = Some {| uri := objectUrl; mimeType := file_type videoFile;
                                frames := Some [] |}
  ∧ vidUrl (update h s) = Some objectUrl
  ∧ resultCache (update h s) = ∅
  ∧ isLoadingVideo (update h s) = false
  ∧ videoError (update h s) = false.
Proof.
  intros Hcfg Hp h. subst h. unfold uploadVideo. rewrite Hcfg. simpl.
  by rewrite bool_decide_eq_false_2.
Qed.

Lemma X23_local_video_witness :
  let cfg := {| provider := anthropic; apiKey := "k"; model := None |} in
  let snap := setProviderConfig (Some cfg) initial in
  let h := uploadVideo snap [{| file_name := "a.mp4"; file_type := "video/mp4" |}]
             "blob:a" {| upload_reply := Throw "unused"; get_replies := [] |} in
  providerConfig snap = Some cfg
  ∧ finished h = true.
Proof.
  intros cfg snap h. split; [reflexivity|].
  exact (proj1 (X23_local_video_for_frame_providers snap cfg
                  {| file_name := "a.mp4"; file_type := "video/mp4" |} []
                  "blob:a" {| upload_reply := Throw "unused"; get_replies := [] |}
                  snap eq_refl ltac:(discriminate))).
Defined.

(** X24. Dropping a video while Gemini is configured: the result cache is
    emptied and the video URL replaced at once. If the upload resolves,
    its value becomes the file and the flags are off. If it rejects, the
    error flag is set, loading is off, and the file is left as it was: the
    handle of the previously loaded video, if there was one, stays in
    place beside the new video URL. While it has not settled, loading
    stays on. *)
Theorem X24_gemini_video_upload_outcomes
    (snap : AppState) (cfg : ProviderConfig) (videoFile : File)
    (files : list File) (objectUrl : string) (remote : Remote) (s : AppState) :
  providerConfig snap = Some cfg →
  provider cfg = gemini →
  let h := uploadVideo snap (videoFile :: files) objectUrl remote in
  let s' := update h s in
  resultCache s' = ∅
  ∧ vidUrl s' = Some objectUrl
  ∧ match outcome (uploadFileToGemini videoFile (apiKey cfg) remote) with
    | Resolved res =>
        finished h = true ∧ file s' = Some res
        ∧ isLoadingVideo s' = false ∧ videoError s' = false
    | Rejected _ =>
        finished h = true ∧ file s' = file s
        ∧ isLoadingVideo s' = false ∧ videoError s' = true
    | StillPending =>
        finished h = false ∧ file s' = file s ∧ isLoadingVideo s' = true
    end.
Proof.
  intros Hcfg Hp h s'. subst s' h. unfold uploadVideo. rewrite Hcfg. simpl.
  rewrite bool_decide_eq_true_2 by done.
  unfold mbind, Try_bind; simpl.
  by destruct (outcome (uploadFileToGemini videoFile (apiKey cfg) remote)).
Qed.

Lemma X24_gemini_upload_witness :
  let cfg := {| provider := gemini; apiKey := "k"; model := None |} in
  let old := {| uri := "https://files/old"; mimeType := "video/mp4"; frames := None |} in
  let snap := setFile (λ _, Some old) (setProviderConfig (Some cfg) initial) in
  let h := uploadVideo snap [{| file_name := "new.mp4"; file_type := "video/mp4" |}]
             "blob:new" {| upload_reply := Throw "413"; get_replies := [] |} in
  providerConfig snap = Some cfg
  ∧ vidUrl (update h snap) = Some "blob:new"
  ∧ file (update h snap) = Some old.
Proof.
  intros cfg old snap h. split; [reflexivity|].
  destruct (X24_gemini_video_upload_outcomes snap cfg
              {| file_name := "new.mp4"; file_type := "video/mp4" |} []
              "blob:new" {| upload_reply := Throw "413"; get_replies := [] |}
              snap eq_refl eq_refl) as (_ & Hurl & Hout).
  split; [exact Hurl|]. simpl in Hout. exact (proj1 (proj2 Hout)).
Defined.


(** ** The cached dot of a mode button *)

Import Text Views.

Lemma append_assoc_ a b c : (a +:+ b) +:+ c = a +:+ (b +:+ c).
Proof.
  induction a as [|x a IH]; [done|]. by rewrite !append_cons, IH.
Qed.

Lemma startsWith_spec p s : startsWith p s = true ↔ ∃ r, s = p +:+ r.
Proof.
  revert s. induction p as [|a p IH]; intros s; simpl.
  - split; [by exists s | done].
  - destruct s as [|b s].
    + split; [done | by intros [r [=]]].
    + rewrite andb_true_iff, Ascii.eqb_eq, IH. split.
      * intros [-> [r ->]]. by exists r.
      * intros [r Hr]. rewrite append_cons in Hr. injection Hr as -> ->.
        split; [done | by exists r].
Qed.

Lemma split_nonempty sep s : split sep s ≠ [].
Proof.
  destruct s as [|c r]; simpl; [done|].
  destruct (Ascii.eqb c sep); [done|]. by destruct (split sep r).
Qed.

Lemma join_cons sep part parts :
  parts ≠ [] → join sep (part :: parts) = part +:+ sep +:+ join sep parts.
Proof. by destruct parts. Qed.

(** Joining the parts of a split with the separator gives the string back. *)
Lemma join_split sep s : join (String sep "") (split sep s) = s.
Proof.
  induction s as [|c r IH]; [done|]. cbn [split].
  pose proof (split_nonempty sep r) as Hne.
  destruct (Ascii.eqb c sep) eqn:Hc.
  - apply Ascii.eqb_eq in Hc as ->.
    by rewrite join_cons, IH.
  - destruct (split sep r) as [|part parts]; [done|].
    destruct parts as [|part' parts].
    + cbn [join] in *. by rewrite IH.
    + rewrite join_cons by done. rewrite join_cons in IH by done.
      by rewrite append_cons, IH.
Qed.

Lemma split_colon_free_prefix a r :
  no_colon a = true →
  split ":" (a +:+ ":" +:+ r) = a :: split ":" r.
Proof.
  induction a as [|c a IH]; intros Ha; [done|].
  simpl in Ha. apply andb_prop in Ha as [Hc Ha].
  rewrite append_cons. simpl.
  apply negb_true_iff in Hc. rewrite Hc. by rewrite (IH Ha).
Qed.

(** The render code recovers the mode of a key of the active
    configuration, provided the model has no [:] in it. *)
Lemma mode_of_cacheKey cfg mode :
  no_colon (model_string cfg) = true →
  mode_of_key (cacheKey cfg mode) = mode.
Proof.
  intros Hm. unfold mode_of_key, cacheKey.
  rewrite split_colon_free_prefix by apply provider_string_no_colon.
  rewrite (split_colon_free_prefix (default "" (model cfg))) by done.
  simpl. apply (join_split ":"%char).
Qed.

Lemma key_prefix_cacheKey cfg mode :
  key_prefix cfg +:+ mode = cacheKey cfg mode.
Proof. unfold key_prefix, cacheKey. by rewrite !append_assoc_. Qed.

(** X25. When the model of the active configuration contains no [:], a
    mode button shows the cached dot exactly when [getCached] has a result
    for that mode: the modes recovered from the cache keys are the modes
    cached under the active provider and model, not those of another
    provider or model. *)
Theorem X25_cached_dot_matches_getCached
    (cfg : ProviderConfig) (s : AppState) (mode : string) :
  providerConfig s = Some cfg →
  no_colon (model_string cfg) = true →
  isCached cfg (resultCache s) mode = true ↔ is_Some (getCached s mode).
Proof.
  intros Hcfg Hm. unfold isCached, cachedModes, getCached. rewrite Hcfg.
  rewrite bool_decide_eq_true, elem_of_list_to_set, list_elem_of_fmap.
  split.
  - intros (k & -> & Hk).
    apply list_elem_of_In, List.filter_In in Hk as [Hin Hpre].
    apply startsWith_spec in Hpre as [rest ->].
    rewrite key_prefix_cacheKey in *. rewrite mode_of_cacheKey by done.
    apply list_elem_of_In, list_elem_of_fmap in Hin as ([k v] & Hk & Hin).
    simpl in Hk. subst k. apply elem_of_map_to_list in Hin. by eexists.
  - intros [v Hv]. exists (cacheKey cfg mode).
    split; [by rewrite mode_of_cacheKey|].
    apply list_elem_of_In, List.filter_In. split.
    + apply list_elem_of_In, list_elem_of_fmap.
      exists (cacheKey cfg mode, v). split; [done|].
      by apply elem_of_map_to_list.
    + apply startsWith_spec. exists mode. by rewrite key_prefix_cacheKey.
Qed.

Lemma X25_cached_dot_witness :
  let cfg := {| provider := openai; apiKey := "k"; model := Some "gpt-4o" |} in
  let other := {| provider := gemini; apiKey := "k"; model := Some "gemini-2.5-pro" |} in
  let r := TimecodeResult (Arr []) in
  let s :=
    setResultCache (λ _, {[ cacheKey cfg "Diagram" := r;
                            cacheKey other "Workflow Steps" := r ]})
      (setProviderConfig (Some cfg) initial) in
  no_colon (model_string cfg) = true
  ∧ isCached cfg (resultCache s) "Diagram" = true
  ∧ ¬ (isCached cfg (resultCache s) "Workflow Steps" = true).
Proof.
  intros cfg other r s. split; [reflexivity|]. split.
  - apply (X25_cached_dot_matches_getCached cfg s "Diagram" eq_refl eq_refl).
    by eexists.
  - intros H.
    apply (X25_cached_dot_matches_getCached cfg s "Workflow Steps"
             eq_refl eq_refl) in H as [v Hv].
    discriminate Hv.
Defined.


(** With a model name that contains [:], the mode recovered from the key
    is not the mode: the dot is missing although the result is cached. *)
Example cached_dot_missing_for_colon_model :
  let cfg := {| provider := openai; apiKey := "k"; model := Some "ft:gpt-4o" |} in
  let s :=
    setResultCache (λ _, {[ cacheKey cfg "Diagram" := TimecodeResult (Arr []) ]})
      (setProviderConfig (Some cfg) initial) in
  is_Some (getCached s "Diagram")
  ∧ isCached cfg (resultCache s) "Diagram" = false.
Proof. split; [by eexists | by vm_compute]. Qed.

(** ** Provider setup screen *)

Lemma trimStart_head s :
  trimStart s = []
  ∨ ∃ c r, trimStart s = c :: r ∧ is_space c = false.
Proof.
  induction s as [|c r IH]; simpl; [by left|].
  destruct (is_space c) eqn:Hc; [done|]. right. by exists c, r.
Qed.

Lemma trimEnd_idemp s : trimEnd (trimEnd s) = trimEnd s.
Proof.
  induction s as [|c r IH]; simpl; [done|].
  destruct (trimEnd r) as [|c' kept] eqn:Hr.
  - destruct (is_space c) eqn:Hc; simpl; [done|]. by rewrite Hc.
  - change (trimEnd (c :: c' :: kept))
      with (match trimEnd (c' :: kept) with
            | [] => if is_space c then [] else [c]
            | k => c :: k
            end).
    by rewrite IH.
Qed.

Lemma trimStart_trimEnd c r :
  is_space c = false →
  trimStart (trimEnd (c :: r)) = trimEnd (c :: r).
Proof.
  intros Hc. simpl. destruct (trimEnd r); rewrite ?Hc; simpl; by rewrite Hc.
Qed.

Lemma trim_idemp s : trim (trim s) = trim s.
Proof.
  unfold trim. destruct (trimStart_head s) as [-> | (c & r & -> & Hc)]; [done|].
  by rewrite trimStart_trimEnd, trimEnd_idemp.
Qed.

(** Nothing is left to trim at either end of a trimmed text. *)
Lemma trim_ends s :
  from_option is_space false (head (trim s)) = false
  ∧ from_option is_space false (last (trim s)) = false.
Proof.
  assert (Hend : ∀ t, from_option is_space false (last (trimEnd t)) = false).
  { induction t as [|c r IH]; simpl; [done|].
    destruct (trimEnd r) as [|c' kept] eqn:Hr.
    - by destruct (is_space c) eqn:Hc; simpl.
    - by rewrite last_cons_cons. }
  split; [|apply Hend].
  unfold trim. destruct (trimStart_head s) as [-> | (c & r & -> & Hc)]; [done|].
  simpl. destruct (trimEnd r); [|done]. rewrite Hc. simpl. done.
Qed.

Lemma defaultModel_of_nonempty p : Setup.defaultModel_of p ≠ "".
Proof. by destruct p. Qed.

(** X26. Submitting the setup screen with a key that is empty once its
    white space is trimmed does nothing. Otherwise the key handed on and
    stored is the trimmed key, which is not empty and neither starts nor
    ends with white space; the stored entries of the other providers are
    untouched; and on a later visit of the screen, selecting the same
    provider brings back that key and the submitted model, so that
    submitting again hands on the same configuration. *)
Theorem X26_setup_submit_and_revisit
    (stored : Setup.Stored) (st : Setup.SetupState) :
  Setup.sel_model st ≠ "" →
  match Setup.handleSubmit stored st with
  | None => trim (Setup.typed_apiKey st) = []
  | Some (saved, cfg) =>
      Setup.cfg_provider cfg = Setup.sel_provider st
      ∧ Setup.cfg_model cfg = Setup.sel_model st
      ∧ Setup.cfg_apiKey cfg = trim (Setup.typed_apiKey st)
      ∧ Setup.cfg_apiKey cfg ≠ []
      ∧ from_option is_space false (head (Setup.cfg_apiKey cfg)) = false
      ∧ from_option is_space false (last (Setup.cfg_apiKey cfg)) = false
      ∧ (∀ q, q ≠ Setup.sel_provider st → saved q = stored q)
      ∧ Setup.handleProviderChange saved (Setup.sel_provider st)
        = {| Setup.sel_provider := Setup.sel_provider st;
             Setup.sel_model := Setup.sel_model st;
             Setup.typed_apiKey := Setup.cfg_apiKey cfg |}
      ∧ ∃ saved',
          Setup.handleSubmit saved
            (Setup.handleProviderChange saved (Setup.sel_provider st))
          = Some (saved', cfg)
          ∧ ∀ q, saved' q = saved q
  end.
Proof.
  intros Hmodel. unfold Setup.handleSubmit.
  pose proof (trim_idemp (Setup.typed_apiKey st)) as Hidem.
  pose proof (trim_ends (Setup.typed_apiKey st)) as [Hhead Hlast].
  destruct (trim (Setup.typed_apiKey st)) as [|c key] eqn:Hkey; [done|].
  assert (Hrevisit :
    Setup.handleProviderChange
      (Setup.with_entry stored (Setup.sel_provider st)
         {| Setup.stored_apiKey := c :: key;
            Setup.stored_model := Setup.sel_model st |})
      (Setup.sel_provider st)
    = {| Setup.sel_provider := Setup.sel_provider st;
         Setup.sel_model := Setup.sel_model st;
         Setup.typed_apiKey := c :: key |}).
  { unfold Setup.handleProviderChange, Setup.stored_model_or, Setup.stored_key,
      Setup.with_entry, Setup.or_else.
    rewrite bool_decide_eq_true_2 by done. simpl.
    apply String.eqb_neq in Hmodel. by rewrite Hmodel. }
  split_and!; try done.
  - intros q Hq. unfold Setup.with_entry. by rewrite bool_decide_eq_false_2.
  - rewrite Hrevisit. cbn [Setup.typed_apiKey Setup.sel_model Setup.sel_provider].
    rewrite Hidem.
    eexists. split; [reflexivity|].
    intros q. unfold Setup.with_entry. by destruct (bool_decide (q = _)).
Qed.

Lemma X26_setup_witness :
  let st := {| Setup.sel_provider := openai; Setup.sel_model := "gpt-4o";
               Setup.typed_apiKey := [0x20; 0xA0; 0x73; 0x6B; 0x2D; 0x31; 0x3000]%N |} in
  Setup.sel_model st ≠ ""
  ∧ snd <$> Setup.handleSubmit (λ _, None) st
    = Some {| Setup.cfg_provider := openai;
              Setup.cfg_apiKey := [0x73; 0x6B; 0x2D; 0x31]%N;
              Setup.cfg_model := "gpt-4o" |}.
Proof.
  intros st.
  assert (H : Setup.sel_model st ≠ "") by discriminate.
  split; [exact H|].
  pose proof (X26_setup_submit_and_revisit (λ _, None) st H) as Hx.
  destruct (Setup.handleSubmit (λ _, None) st) as [[saved cfg]|] eqn:Hs.
  - destruct Hx as (Hp & Hm & Hk & _). simpl.
    destruct cfg as [p k m]. simpl in *. by subst.
  - discriminate Hx.
Defined.

(** A key of no-break spaces, or of any other white space that is not
    ASCII, is blank. *)
Example blank_key_is_not_submitted :
  Setup.handleSubmit (λ _, None)
    {| Setup.sel_provider := gemini; Setup.sel_model := "gemini-2.5-flash";
       Setup.typed_apiKey := [0xA0; 0x2028; 0xFEFF; 0x09]%N |}
  = None.
Proof. reflexivity. Qed.


(** ** Reading the provider's response *)

Import Responses.

Section ResponseProperties.
Variable number_to_string : Z → string.
Variable JSON_parse : value → exc value.

Local Abbreviation openaiResult := (openaiResult number_to_string JSON_parse).
Local Abbreviation anthropicResult := (anthropicResult number_to_string).

Lemma http_error_throws {A} vendor response :
  ∃ e, @http_error number_to_string A vendor response = Throw e.
Proof.
  unfold http_error. destruct (json response) as [err|e]; simpl; [|by eexists].
  destruct err; simpl; by eexists.
Qed.

Lemma find_tool_use_spec content :
  Forall (λ c, nullish c = false) content →
  find_tool_use content = Ok (default Undefined (List.find is_tool_use content)).
Proof.
  induction 1 as [|c content Hc _ IH]; [done|].
  cbn [find_tool_use List.find].
  destruct c as [| |b|n|s|l|o]; try done; simpl; try apply IH.
  destruct (own_get "type" o) as [| |b|n|s|l|o']; simpl; try apply IH.
  destruct (String.eqb s "tool_use"); [done | apply IH].
Qed.

Lemma find_is_tool_use content c :
  List.find is_tool_use content = Some c →
  ∃ o, c = Obj o ∧ own_get "type" o = Str "tool_use".
Proof.
  intros H. apply List.find_some in H as [_ H].
  destruct c as [| |b|n|s|l|o]; try done. exists o. split; [done|].
  simpl in H. destruct (own_get "type" o); try done.
  by apply String.eqb_eq in H as ->.
Qed.

Lemma get_defined k v : nullish v = false → get k v = Ok (get_opt k v).
Proof. by destruct v. Qed.

Lemma get_nullish k v : nullish v = true → get k v = Throw TypeError.
Proof. by destruct v. Qed.

Lemma truthy_defined v : truthy v = true → nullish v = false.
Proof. by destruct v. Qed.

Lemma exc_bind_Ok {A B} (a : A) (k : A → exc B) : (x ← Ok a; k x) = k a.
Proof. reflexivity. Qed.

End ResponseProperties.

(** X27. A response that is not [ok] never yields function calls: both
    adapters throw. When the error body is a JSON object, the message
    thrown is the vendor name, [ error: ] and the body's [error.message]
    if that is a non-empty string, or the HTTP status text if
    [error.message] is absent or falsy. *)
Theorem X27_http_error_carries_vendor_message
    (number_to_string : Z → string) (JSON_parse : value → exc value)
    (response : Response) :
  ok response = false →
  (∃ e, openaiResult number_to_string JSON_parse response = Throw e)
  ∧ (∃ e, anthropicResult number_to_string response = Throw e)
  ∧ ∀ body, json response = Ok (Obj body) →
      let message := get_opt "message" (own_get "error" body) in
      (∀ m, message = Str m → m ≠ "" →
         openaiResult number_to_string JSON_parse response
         = Throw ("OpenAI error: " +:+ m)
         ∧ anthropicResult number_to_string response
           = Throw ("Anthropic error: " +:+ m))
      ∧ (truthy message = false →
         openaiResult number_to_string JSON_parse response
         = Throw ("OpenAI error: " +:+ statusText response)
         ∧ anthropicResult number_to_string response
           = Throw ("Anthropic error: " +:+ statusText response)).
Proof.
  intros Hok. unfold openaiResult, anthropicResult. rewrite Hok. simpl.
  split; [apply http_error_throws|]. split; [apply http_error_throws|].
  intros body Hjson.
  unfold http_error. rewrite Hjson. simpl. split.
  - intros m -> Hm. simpl. apply String.eqb_neq in Hm. by rewrite Hm.
  - by intros ->.
Qed.

Lemma X27_http_error_witness :
  let response :=
    {| ok := false; statusText := "Too Many Requests";
       json := Ok (Obj [("error", Obj [("message", Str "Rate limit reached")])]) |} in
  ok response = false
  ∧ anthropicResult (λ _, "") response
    = Throw "Anthropic error: Rate limit reached".
Proof.
  intros response. split; [reflexivity|].
  destruct (X27_http_error_carries_vendor_message (λ _, "") (λ _, Ok Null)
              response eq_refl) as (_ & _ & H).
  destruct (H _ eq_refl) as [Hm _].
  exact (proj2 (Hm "Rate limit reached" eq_refl ltac:(discriminate))).
Defined.

(** X28. From an [ok] Anthropic reply whose [content] is an array without
    [null] elements, the adapter returns the first block of type
    [tool_use] in content order, as one call with that block's [name] and
    [input], whatever blocks come before or after it; it returns no call
    exactly when no block has that type. *)
Theorem X28_anthropic_takes_first_tool_use
    (number_to_string : Z → string) (response : Response)
    (body : list (string * value)) (content : list value) :
  ok response = true →
  json response = Ok (Obj body) →
  own_get "content" body = Arr content →
  Forall (λ c, nullish c = false) content →
  anthropicResult number_to_string response
  = Ok match List.find is_tool_use content with
       | Some block => [{| raw_name := get_opt "name" block;
                           raw_args := get_opt "input" block |}]
       | None => []
       end.
Proof.
  intros Hok Hjson Hcontent Hall. unfold anthropicResult.
  rewrite Hok, Hjson. simpl. rewrite Hcontent. simpl.
  rewrite find_tool_use_spec by done.
  destruct (List.find is_tool_use content) as [block|] eqn:Hfind; simpl; [|done].
  apply find_is_tool_use in Hfind as (o & -> & _). done.
Qed.

Lemma X28_anthropic_witness :
  let content :=
    [Obj [("type", Str "text"); ("text", Str "I will call the tool.")];
     Obj [("type", Str "tool_use"); ("name", Str "set_timecodes");
          ("input", Obj [("timecodes", Arr [])])];
     Obj [("type", Str "tool_use"); ("name", Str "set_jsonl_context");
          ("input", Obj [])]] in
  let response := {| ok := true; statusText := "OK";
                     json := Ok (Obj [("content", Arr content)]) |} in
  Forall (λ c, nullish c = false) content
  ∧ anthropicResult (λ _, "") response
    = Ok [{| raw_name := Str "set_timecodes";
             raw_args := Obj [("timecodes", Arr [])] |}].
Proof.
  intros content response.
  assert (H : Forall (λ c, nullish c = false) content) by (by repeat constructor).
  split; [exact H|].
  exact (X28_anthropic_takes_first_tool_use (λ _, "") response
           [("content", Arr content)] content eq_refl eq_refl eq_refl H).
Defined.

(** X29. Whatever the response, an adapter returns at most one function
    call; for OpenAI a returned call carries the [function.name] of the
    first tool call of the first choice and the parsed
    [function.arguments]. *)
Theorem X29_at_most_one_call
    (number_to_string : Z → string) (JSON_parse : value → exc value)
    (response : Response) (calls : list RawCall) :
  (openaiResult number_to_string JSON_parse response = Ok calls →
   length calls ≤ 1
   ∧ ∀ call, calls = [call] →
       ∃ data,
         json response = Ok data
         ∧ let fn := get_opt "function"
                       (first_opt (get_opt "tool_calls"
                          (get_opt "message" (first_opt (get_opt "choices" data))))) in
           raw_name call = get_opt "name" fn
           ∧ JSON_parse (get_opt "arguments" fn) = Ok (raw_args call))
  ∧ (anthropicResult number_to_string response = Ok calls → length calls ≤ 1).
Proof.
  split.
  - unfold openaiResult. intros H.
    destruct (ok response); simpl in H;
      [|destruct (http_error_throws number_to_string (A:=list RawCall)
                    "OpenAI" response) as [e He]; by rewrite He in H].
    destruct (json response) as [data|e]; [|done].
    rewrite exc_bind_Ok in H.
    destruct (nullish data) eqn:Hdata;
      [rewrite (get_nullish "choices" data Hdata) in H; discriminate H|].
    rewrite (get_defined "choices"), exc_bind_Ok in H by done.
    set (toolCall := first_opt _) in *.
    destruct (truthy toolCall) eqn:Htruthy;
      [|injection H as <-; split; [simpl; lia | done]].
    rewrite (get_defined "function"), exc_bind_Ok in H
      by by apply truthy_defined.
    set (fn := get_opt "function" toolCall) in *.
    destruct (nullish fn) eqn:Hfn;
      [rewrite (get_nullish "name" fn Hfn) in H; discriminate H|].
    rewrite (get_defined "name"), exc_bind_Ok in H by done.
    rewrite (get_defined "arguments"), exc_bind_Ok in H by done.
    destruct (JSON_parse (get_opt "arguments" fn)) as [args|e] eqn:Hparse;
      [|done].
    rewrite exc_bind_Ok in H. injection H as <-. split; [simpl; lia|].
    intros call [= <-]. by exists data.
  - unfold anthropicResult.
    destruct (ok response); simpl;
      [|destruct (http_error_throws number_to_string (A:=list RawCall)
                    "Anthropic" response) as [e ->]; done].
    destruct (json response) as [data|e]; simpl; [|done].
    destruct (get "content" data) as [content|e]; simpl; [|done].
    destruct (match content with
              | Undefined | Null => Ok Undefined
              | Arr l => find_tool_use l
              | _ => Throw TypeError
              end) as [toolUse|e]; simpl; [|done].
    destruct (truthy toolUse); simpl; [|intros [= <-]; simpl; lia].
    destruct (get "name" toolUse) as [name|e]; simpl; [|done].
    destruct (get "input" toolUse) as [input|e]; simpl; [|done].
    intros [= <-]. simpl. lia.
Qed.

Lemma X29_at_most_one_call_witness :
  let response :=
    {| ok := true; statusText := "OK";
       json := Ok (Obj [("choices",
                Arr [Obj [("message",
                  Obj [("tool_calls",
                    Arr [Obj [("function",
                           Obj [("name", Str "set_timecodes");
                                ("arguments", Str "{}")])];
                         Obj [("function",
                           Obj [("name", Str "set_jsonl_context");
                                ("arguments", Str "{}")])]])])]])]) |} in
  openaiResult (λ _, "") (λ _, Ok (Obj [])) response
    = Ok [{| raw_name := Str "set_timecodes"; raw_args := Obj [] |}]
  ∧ length [{| raw_name := Str "set_timecodes"; raw_args := Obj [] |}] ≤ 1.
Proof.
  intros response. split; [reflexivity|].
  exact (proj1 (proj1 (X29_at_most_one_call (λ _, "") (λ _, Ok (Obj [])) response
                         _) eq_refl)).
Defined.


(** ** The PlantUML image URL *)

Lemma append_nil_r_ s : s +:+ "" = s.
Proof. induction s as [|c s IH]; [done|]. by rewrite append_cons, IH. Qed.

Lemma join_empty_cons part parts :
  join "" (part :: parts) = part +:+ join "" parts.
Proof. destruct parts; [by rewrite append_nil_r_ | done]. Qed.

Lemma unhex_pair h l rest :
  unhex (String h (String l rest))
  = (hi ← hex_value h; lo ← hex_value l; bytes ← unhex rest;
     Some (Ascii.ascii_of_N (16 * hi + lo) :: bytes)).
Proof. reflexivity. Qed.

Lemma unhex_byte b rest :
  unhex (Diagram.padStart2 (Diagram.toString16 (N_of_ascii b)) +:+ rest)
  = (b ::.) <$> unhex rest.
Proof.
  destruct b as [[] [] [] [] [] [] [] []].
  all: match goal with |- unhex (?p +:+ ?r) = _ =>
         let t := eval vm_compute in p in change p with t end.
  all: rewrite !append_cons, unhex_pair.
  all: change ("" +:+ rest) with rest.
  all: by destruct (unhex rest).
Qed.

Lemma length_hex_byte b :
  String.length (Diagram.padStart2 (Diagram.toString16 (N_of_ascii b))) = 2.
Proof. by destruct b as [[] [] [] [] [] [] [] []]. Qed.

Section DiagramProperties.
Variable TextEncoder_encode : Text.CodeUnits → list Ascii.ascii.

Local Abbreviation getPlantUMLSvgUrl :=
  (Diagram.getPlantUMLSvgUrl TextEncoder_encode).

(** X30. The PlantUML URL is the server prefix followed by two lower-case
    hexadecimal digits per byte that [TextEncoder] yields for the source,
    and reading the digits back gives these bytes. So two diagram sources
    get the same URL exactly when they have the same UTF-8 bytes. *)
Theorem X30_plantuml_url_is_decodable (source : Text.CodeUnits) :
  ∃ hex,
    getPlantUMLSvgUrl source
    = "https://www.plantuml.com/plantuml/svg/~h" +:+ hex
    ∧ String.length hex = 2 * length (TextEncoder_encode source)
    ∧ unhex hex = Some (TextEncoder_encode source)
    ∧ ∀ other, getPlantUMLSvgUrl other = getPlantUMLSvgUrl source
               ↔ TextEncoder_encode other = TextEncoder_encode source.
Proof.
  assert (Hhex : ∀ bytes,
    let hex := join "" (map (λ b, Diagram.padStart2
                                    (Diagram.toString16 (N_of_ascii b)))
                            bytes) in
    String.length hex = 2 * length bytes ∧ unhex hex = Some bytes).
  { intros bytes. induction bytes as [|b bytes [IHl IHu]]; [done|].
    cbn [map]. rewrite join_empty_cons. split.
    - rewrite string_length_app, length_hex_byte, IHl. simpl. lia.
    - by rewrite unhex_byte, IHu. }
  eexists. split; [reflexivity|].
  destruct (Hhex (TextEncoder_encode source)) as [Hl Hu].
  split; [done|]. split; [done|].
  intros other. unfold Diagram.getPlantUMLSvgUrl. split.
  - intros Heq. apply (inj (String.app _)) in Heq.
    destruct (Hhex (TextEncoder_encode other)) as [_ Hu'].
    rewrite Heq, Hu in Hu'. by injection Hu' as <-.
  - by intros ->.
Qed.

End DiagramProperties.
